(** * Validation of Iceberg tables with PyIceberg

    A shallow embedding of [scripts/validate-with-pyiceberg.py]: the
    function [validate_iceberg_table] and the command-line entry point
    [main], together with the properties of the validation report that
    the design document states about them.

    The script talks to three collaborators it does not implement: the
    filesystem ([os.path.exists]), the PyIceberg catalog (the "Metadata
    Store") and the table scan (the "Data Reader").  Their answers are the
    fields of a [World]; every method call on them may raise.  The script
    itself is a computation in a small monad that records, in order, every
    line it prints and every collaborator call it makes, and that
    propagates Python exceptions until a handler catches them.  The
    script is given twice: first on a console that accepts every line,
    which is what the properties of the report are about, then, in the
    module [Printing], on a console whose writes can raise, which is what
    decides the exceptions that leave a function and the exit status. *)

From Stdlib Require Import String Ascii ZArith List Bool Lia DecimalString.
Import ListNotations.
Local Open Scope string_scope.
Local Open Scope Z_scope.

(** ** Python values and exceptions *)

(** [str(n)] for a Python [int]. *)
Definition str_int (z : Z) : string := NilZero.string_of_int (Z.to_int z).

(** [str(n)] for the result of [len]. *)
Definition str_len (n : nat) : string := NilZero.string_of_uint (Nat.to_uint n).

(** The line feed that several messages start with ("\n..."). *)
Definition nl : string := String (ascii_of_nat 10) "".

(** ["=" * n]. *)
Fixpoint str_repeat (s : string) (n : nat) : string :=
  match n with
  | O => ""
  | S k => s ++ str_repeat s k
  end.

(** The exceptions a collaborator can raise, by the handler of
    [validate_iceberg_table] that they reach; the string is [str(e)].
    [OtherException] is any other class derived from [Exception].
    [KeyboardInterrupt] stands for the classes that derive from
    [BaseException] but not from [Exception] ([SystemExit] and
    [GeneratorExit] are the others): no [except Exception] clause catches
    them. *)
Inductive exn : Type :=
| NoSuchTableError (msg : string)
| ModuleNotFoundError (msg : string)
| OtherException (msg : string)
| KeyboardInterrupt.

Definition str_exn (e : exn) : string :=
  match e with
  | NoSuchTableError m | ModuleNotFoundError m | OtherException m => m
  | KeyboardInterrupt => ""
  end.

(** [isinstance(e, Exception)]. *)
Definition is_Exception (e : exn) : bool :=
  match e with
  | KeyboardInterrupt => false
  | _ => true
  end.

(** The result of a call that may raise. *)
Inductive result (A : Type) : Type :=
| Ok (a : A)
| Raise (e : exn).
Arguments Ok {A} a.
Arguments Raise {A} e.

(** ** The table as the collaborators expose it *)

Record Field : Type := {
  field_id : Z;
  name : string;
  field_type : string          (* str(field.field_type) *)
}.

Record Schema : Type := {
  schema_id : Z;
  fields : list Field
}.

Record Snapshot : Type := {
  snapshot_id : Z;
  timestamp_ms : Z;
  summary : string             (* str(snapshot.summary) *)
}.

(** The pandas frame a scan materialises, through what the script reads
    of it. *)
Record DataFrame : Type := {
  df_len : nat;                        (* len(df) *)
  df_columns : string;                 (* str(list(df.columns)) *)
  df_head : string;                    (* df.head().to_string() *)
  df_dtypes : list (string * string)   (* df.dtypes.items(), printed *)
}.

Record DataScan : Type := {
  to_pandas : result DataFrame
}.

Record TableMetadata : Type := {
  format_version : Z;
  table_uuid : string;
  snapshots : result (list Snapshot);
  current_snapshot : result (option Snapshot);
  last_sequence_number : Z;
  last_updated_ms : Z
}.

Record Table : Type := {
  location : result string;
  metadata : TableMetadata;
  schema : result Schema;
  scan : result DataScan;
  properties : result string   (* str(table.properties) *)
}.

Record Catalog : Type := {
  load_table : string -> result Table
}.

(** [load_catalog w p] is
    [load_catalog("local", type="filesystem", warehouse=p)]. *)
Record World : Type := {
  os_path_exists : string -> bool;
  load_catalog : string -> result Catalog
}.

(** ** The report *)

Inductive Severity : Type := ERROR | WARNING | INFO.

Inductive Category : Type :=
| cat_metadata | cat_schema | cat_snapshot | cat_scan.

Record Finding : Type := {
  severity : Severity;
  category : Category;
  message : string
}.

(** The collaborator calls of the script. *)
Inductive Call : Type :=
| call_exists (path : string)
| call_load_catalog (warehouse : string)
| call_load_table (table_name : string)
| call_location
| call_schema
| call_snapshots
| call_current_snapshot
| call_scan
| call_to_pandas
| call_properties.

(** What a run does, in order: a line of the validation report, a line
    that [main] prints around it, the traceback written to standard
    error, a call to a collaborator. *)
Inductive Event : Type :=
| Report (f : Finding)
| Stdout (text : string)
| Traceback (e : exn)
| Called (c : Call).

Definition is_error (f : Finding) : bool :=
  match severity f with ERROR => true | _ => false end.

(** The Findings of a run, in emission order. *)
Fixpoint findings (tr : list Event) : list Finding :=
  match tr with
  | [] => []
  | Report f :: rest => f :: findings rest
  | _ :: rest => findings rest
  end.

(** The collaborator calls of a run, in order. *)
Fixpoint calls (tr : list Event) : list Call :=
  match tr with
  | [] => []
  | Called c :: rest => c :: calls rest
  | _ :: rest => calls rest
  end.

Definition errors (tr : list Event) : list Finding :=
  filter is_error (findings tr).

(** [mentions s msg]: the text [s] occurs in the message [msg]. *)
Definition mentions (s msg : string) : Prop :=
  exists before after, msg = before ++ s ++ after.

(** ** The monad of the script

    A computation is started in a stage of the pipeline (the Category its
    lines are filed under) and yields the events it produced, the stage
    it ended in and either a value or the exception that left it. *)
Definition M (A : Type) : Type :=
  Category -> list Event * Category * result A.

Definition ret {A} (a : A) : M A := fun c => ([], c, Ok a).

(** The events [es] happened before the run [x]. *)
Definition prepend {A} (es : list Event)
  (x : list Event * Category * result A) : list Event * Category * result A :=
  let '(es2, c2, r2) := x in ((es ++ es2)%list, c2, r2).

Definition bind {A B} (m : M A) (k : A -> M B) : M B :=
  fun c =>
    let '(es1, c1, r) := m c in
    match r with
    | Ok a => prepend es1 (k a c1)
    | Raise e => (es1, c1, Raise e)
    end.

Declare Scope py_scope.
Delimit Scope py_scope with py.
Notation "x <- m ;; k" := (bind m (fun x => k))
  (at level 61, m at next level, right associativity) : py_scope.
Notation "m ;; k" := (bind m (fun _ => k))
  (at level 61, right associativity) : py_scope.
Local Open Scope py_scope.

(** [print(text)] inside [validate_iceberg_table]: a Finding whose
    severity is the marker the line carries (a cross: ERROR, a warning
    sign: WARNING, anything else: INFO) and whose category is the
    current stage. *)
Definition say (sev : Severity) (text : string) : M unit :=
  fun c => ([Report {| severity := sev; category := c; message := text |}],
            c, Ok tt).

(** A call to a collaborator, with the answer of the world. *)
Definition call {A} (what : Call) (answer : result A) : M A :=
  fun c => ([Called what], c, answer).

(** The section comments of the source move the pipeline on. *)
Definition enter (stage : Category) : M unit :=
  fun _ => ([], stage, Ok tt).

Definition pass : M unit := ret tt.

(** [for x in xs: acc = body(x, acc)]. *)
Fixpoint for_each {A S} (xs : list A) (acc : S) (body : A -> S -> M S) : M S :=
  match xs with
  | [] => ret acc
  | x :: rest => acc' <- body x acc ;; for_each rest acc' body
  end.

(** [try: body except ...]: [handler e] is the clause that matches [e],
    or [None] when no clause does and [e] propagates. *)
Definition try_except {A} (body : M A) (handler : exn -> option (M A)) : M A :=
  fun c =>
    let '(es1, c1, r) := body c in
    match r with
    | Ok a => (es1, c1, Ok a)
    | Raise e =>
        match handler e with
        | Some h => prepend es1 (h c1)
        | None => (es1, c1, Raise e)
        end
    end.

(** [traceback.print_exc()]. *)
Definition print_exc (e : exn) : M unit :=
  fun c => ([Traceback e], c, Ok tt).

(** ** [validate_iceberg_table] *)

(** The loop over [schema.fields]; the accumulator is [field_id_issues]. *)
Definition field_loop (field : Field) (field_id_issues : bool) : M bool :=
  say INFO ("    - Field " ++ str_int (field_id field) ++ ": " ++ name field
            ++ " (" ++ field_type field ++ ")") ;;
  if field_id field <=? 0 then
    say WARNING ("      ⚠️  WARNING: Invalid field ID "
                 ++ str_int (field_id field)) ;;
    ret true
  else
    ret field_id_issues.

(** The loop over [snapshots]. *)
Definition snapshot_loop (snapshot : Snapshot) (_ : unit) : M unit :=
  say INFO ("  - Snapshot " ++ str_int (snapshot_id snapshot)) ;;
  say INFO ("    Timestamp: " ++ str_int (timestamp_ms snapshot)) ;;
  say INFO ("    Summary: " ++ summary snapshot).

(** The loop over [df.dtypes.items()]. *)
Definition dtype_loop (item : string * string) (_ : unit) : M unit :=
  let '(col, dtype) := item in
  say INFO ("    " ++ col ++ ": " ++ dtype).

(** The body of the [try] statement, lines 31 to 116, is cut at its
    section comments. *)

(** Validate schema, lines 58 to 68; the result is [field_id_issues]. *)
Definition validate_schema (table : Table) : M bool :=
  enter cat_schema ;;
  sch <- call call_schema (schema table) ;;
  say INFO (nl ++ "✓ Schema validation:") ;;
  say INFO ("  Schema ID: " ++ str_int (schema_id sch)) ;;
  say INFO ("  Field count: " ++ str_len (length (fields sch))) ;;
  for_each (fields sch) false field_loop.

(** Validate snapshots, lines 75 to 83. *)
Definition validate_snapshots (table : Table) : M unit :=
  enter cat_snapshot ;;
  snaps <- call call_snapshots (snapshots (metadata table)) ;;
  match snaps with
  | [] => say WARNING (nl ++ "⚠️  WARNING: No snapshots found (table is empty)")
  | _ :: _ =>
      say INFO (nl ++ "✓ Snapshots: " ++ str_len (length snaps)) ;;
      for_each snaps tt snapshot_loop
  end.

(** Try to scan table, lines 91 to 104. *)
Definition scan_table (table : Table) : M unit :=
  enter cat_scan ;;
  say INFO (nl ++ "✓ Scanning table data...") ;;
  sc <- call call_scan (scan table) ;;
  df <- call call_to_pandas (to_pandas sc) ;;
  say INFO ("  Record count: " ++ str_len (df_len df)) ;;
  say INFO ("  Columns: " ++ df_columns df) ;;
  if (0 <? df_len df)%nat then
    say INFO (nl ++ "  Sample data (first 5 rows):") ;;
    say INFO (df_head df) ;;
    (* Validate column types *)
    say INFO (nl ++ "  Column types:") ;;
    for_each (df_dtypes df) tt dtype_loop
  else pass.

(** Validate current snapshot, lines 86 to 106. *)
Definition validate_current_snapshot (table : Table) : M unit :=
  current <- call call_current_snapshot (current_snapshot (metadata table)) ;;
  match current with
  | Some cur =>
      say INFO (nl ++ "✓ Current snapshot: " ++ str_int (snapshot_id cur)) ;;
      scan_table table
  | None =>
      say WARNING (nl ++ "⚠️  No current snapshot (empty table)")
  end.

(** Additional metadata checks and the closing lines, lines 109 to 116. *)
Definition additional_metadata (table : Table) (table_name : string)
  : M bool :=
  enter cat_metadata ;;
  say INFO (nl ++ "✓ Additional metadata:") ;;
  say INFO ("  Last sequence number: "
            ++ str_int (last_sequence_number (metadata table))) ;;
  say INFO ("  Last updated: " ++ str_int (last_updated_ms (metadata table))) ;;
  props <- call call_properties (properties table) ;;
  say INFO ("  Properties: " ++ props) ;;
  say INFO (nl ++ "✅ Table '" ++ table_name
            ++ "' is valid and compatible with PyIceberg!") ;;
  say INFO ("   All checks passed. The table structure conforms to Iceberg v2 specification.") ;;
  ret true.

(** Load table and validate format version, lines 46 to 55. *)
Definition load_and_describe (catalog : Catalog) (table_name : string)
  : M Table :=
  table <- call (call_load_table table_name) (load_table catalog table_name) ;;
  say INFO ("✓ Successfully loaded table: " ++ table_name) ;;
  loc <- call call_location (location table) ;;
  say INFO ("  Location: " ++ loc) ;;
  say INFO ("  Format version: " ++ str_int (format_version (metadata table))) ;;
  say INFO ("  Table UUID: " ++ table_uuid (metadata table)) ;;
  (* Validate format version *)
  (if negb (format_version (metadata table) =? 2) then
     say WARNING ("  ⚠️  WARNING: Format version is "
                  ++ str_int (format_version (metadata table))
                  ++ ", expected 2")
   else pass) ;;
  ret table.

Definition validate_body (w : World) (warehouse_path table_name : string)
  : M bool :=
  (* Verify warehouse path exists *)
  found <- call (call_exists warehouse_path)
                (Ok (os_path_exists w warehouse_path)) ;;
  if negb found then
    say ERROR ("❌ Warehouse path does not exist: " ++ warehouse_path) ;;
    ret false
  else
  (* Load filesystem catalog *)
  catalog <- call (call_load_catalog warehouse_path)
                  (load_catalog w warehouse_path) ;;
  table <- load_and_describe catalog table_name ;;
  field_id_issues <- validate_schema table ;;
  if field_id_issues : bool then
    say ERROR (nl ++ "❌ Field ID issues detected - schema evolution may not work correctly") ;;
    ret false
  else
  validate_snapshots table ;;
  validate_current_snapshot table ;;
  additional_metadata table table_name.

(** The [except] clauses, lines 118 to 130, in the order Python tries
    them. *)
Definition validate_handlers (warehouse_path table_name : string) (e : exn)
  : option (M bool) :=
  match e with
  | NoSuchTableError _ => Some (
      say ERROR ("❌ Table not found: " ++ table_name) ;;
      say INFO ("   Verify the table exists in warehouse: " ++ warehouse_path) ;;
      ret false)
  | ModuleNotFoundError _ => Some (
      say ERROR ("❌ Missing Python module: " ++ str_exn e) ;;
      say INFO ("   Install with: pip install pyiceberg pandas") ;;
      ret false)
  | OtherException _ => Some (
      say ERROR ("❌ Validation failed: " ++ str_exn e) ;;
      print_exc e ;;
      ret false)
  | KeyboardInterrupt => None
  end.

(** How a call of a Python function ends. *)
Inductive Outcome (A : Type) : Type :=
| Returned (a : A)
| Propagated (e : exn).
Arguments Returned {A} a.
Arguments Propagated {A} e.

(** A run of a computation from the start of the pipeline. *)
Definition run {A} (m : M A) : list Event * Outcome A :=
  let '(tr, _, r) := m cat_metadata in
  (tr, match r with Ok a => Returned a | Raise e => Propagated e end).

Definition validate_iceberg_table (w : World)
  (warehouse_path table_name : string) : list Event * Outcome bool :=
  run (try_except (validate_body w warehouse_path table_name)
                  (validate_handlers warehouse_path table_name)).

(** The events and the verdict of a run. *)
Definition trace_of (w : World) (warehouse_path table_name : string)
  : list Event := fst (validate_iceberg_table w warehouse_path table_name).

Definition report (w : World) (warehouse_path table_name : string)
  : list Finding := findings (trace_of w warehouse_path table_name).

Definition outcome (w : World) (warehouse_path table_name : string)
  : Outcome bool := snd (validate_iceberg_table w warehouse_path table_name).

(** [passed] of the Validation Report: the run returned [True]. *)
Definition passed (w : World) (warehouse_path table_name : string) : bool :=
  match outcome w warehouse_path table_name with
  | Returned b => b
  | Propagated _ => false
  end.

(** ** [main] *)

(** How the process ends: [sys.exit(status)], or an exception that
    nothing caught. *)
Inductive Exit : Type :=
| Exited (status : Z)
| Uncaught (e : exn).

Definition usage : list string :=
  [ "Usage: python3 validate-with-pyiceberg.py <warehouse_path> <table_name>";
    nl ++ "Example:";
    "  python3 validate-with-pyiceberg.py /tmp/iceberg-warehouse test_table";
    nl ++ "This script validates Iceberg tables created by DataTransfer.Iceberg";
    "and verifies compatibility with the PyIceberg library." ].

Definition rule : string := str_repeat "=" 70.

(** [main], with [argv] for [sys.argv]. *)
Definition main (w : World) (argv : list string) : list Event * Exit :=
  if negb (length argv =? 3)%nat then
    (map Stdout usage, Exited 1)
  else
    let warehouse := nth 1 argv "" in
    let table := nth 2 argv "" in
    let banner :=
      map Stdout [ rule; "Iceberg Table Validation (PyIceberg)"; rule;
                   "Warehouse: " ++ warehouse; "Table: " ++ table; rule; "" ] in
    match validate_iceberg_table w warehouse table with
    | (tr, Returned success) =>
        ((banner ++ tr ++
          map Stdout [ ""; rule;
                       if success : bool then "RESULT: PASSED ✅"
                       else "RESULT: FAILED ❌";
                       rule ])%list,
         Exited (if success then 0 else 1))
    | (tr, Propagated e) => ((banner ++ tr)%list, Uncaught e)
    end.

(** ** The Findings the claims speak of *)

(** The line printed for every field, and the warning printed for a field
    whose identifier is not positive (lines 65 and 67). *)
Definition field_info (f : Field) : Finding :=
  {| severity := INFO; category := cat_schema;
     message := "    - Field " ++ str_int (field_id f) ++ ": " ++ name f
                ++ " (" ++ field_type f ++ ")" |}.

Definition invalid_field_id (f : Field) : Finding :=
  {| severity := WARNING; category := cat_schema;
     message := "      ⚠️  WARNING: Invalid field ID " ++ str_int (field_id f) |}.

(** All that the loop prints for one field. *)
Definition field_findings (f : Field) : list Finding :=
  field_info f :: (if field_id f <=? 0 then [invalid_field_id f] else []).

(** The schema-level line that precedes [return False] (line 71). *)
Definition field_id_issues_detected : Finding :=
  {| severity := ERROR; category := cat_schema;
     message := nl ++ "❌ Field ID issues detected - schema evolution may not work correctly" |}.

Definition warehouse_missing (warehouse_path : string) : Finding :=
  {| severity := ERROR; category := cat_metadata;
     message := "❌ Warehouse path does not exist: " ++ warehouse_path |}.

Definition table_not_found (stage : Category) (table_name : string) : Finding :=
  {| severity := ERROR; category := stage;
     message := "❌ Table not found: " ++ table_name |}.

Definition verify_table_exists (stage : Category) (warehouse_path : string)
  : Finding :=
  {| severity := INFO; category := stage;
     message := "   Verify the table exists in warehouse: " ++ warehouse_path |}.

Definition no_snapshots_found : Finding :=
  {| severity := WARNING; category := cat_snapshot;
     message := nl ++ "⚠️  WARNING: No snapshots found (table is empty)" |}.

Definition no_current_snapshot : Finding :=
  {| severity := WARNING; category := cat_snapshot;
     message := nl ++ "⚠️  No current snapshot (empty table)" |}.

Definition has_bad_field (sch : Schema) : bool :=
  existsb (fun f => field_id f <=? 0) (fields sch).

(** The events of the three loops. *)
Definition field_events (fs : list Field) : list Event :=
  map Report (flat_map field_findings fs).

Definition snapshot_findings (s : Snapshot) : list Finding :=
  [ {| severity := INFO; category := cat_snapshot;
       message := "  - Snapshot " ++ str_int (snapshot_id s) |};
    {| severity := INFO; category := cat_snapshot;
       message := "    Timestamp: " ++ str_int (timestamp_ms s) |};
    {| severity := INFO; category := cat_snapshot;
       message := "    Summary: " ++ summary s |} ].

Definition snapshot_events (ss : list Snapshot) : list Event :=
  map Report (flat_map snapshot_findings ss).

Definition dtype_finding (item : string * string) : Finding :=
  {| severity := INFO; category := cat_scan;
     message := "    " ++ fst item ++ ": " ++ snd item |}.

Definition dtype_events (items : list (string * string)) : list Event :=
  map (fun i => Report (dtype_finding i)) items.

(** *** The report of a run, stage by stage

    What each stage of [validate_body] leaves in the trace when the
    collaborators answer. *)

Definition info (c : Category) (text : string) : Event :=
  Report {| severity := INFO; category := c; message := text |}.

Definition format_warning (table : Table) : list Event :=
  if negb (format_version (metadata table) =? 2) then
    [ Report {| severity := WARNING; category := cat_metadata;
                message := "  ⚠️  WARNING: Format version is "
                           ++ str_int (format_version (metadata table))
                           ++ ", expected 2" |} ]
  else [].

(** Lines 46 to 55. *)
Definition describe_events (table_name loc : string) (table : Table)
  : list Event :=
  ([ Called (call_load_table table_name);
     info cat_metadata ("✓ Successfully loaded table: " ++ table_name);
     Called call_location;
     info cat_metadata ("  Location: " ++ loc);
     info cat_metadata ("  Format version: "
                        ++ str_int (format_version (metadata table)));
     info cat_metadata ("  Table UUID: " ++ table_uuid (metadata table)) ]
   ++ format_warning table)%list.

(** Lines 32 to 55. *)
Definition metadata_events (warehouse_path table_name loc : string)
  (table : Table) : list Event :=
  Called (call_exists warehouse_path)
  :: Called (call_load_catalog warehouse_path)
  :: describe_events table_name loc table.

(** Lines 58 to 68. *)
Definition schema_events (sch : Schema) : list Event :=
  ([ Called call_schema;
     info cat_schema (nl ++ "✓ Schema validation:");
     info cat_schema ("  Schema ID: " ++ str_int (schema_id sch));
     info cat_schema ("  Field count: " ++ str_len (length (fields sch))) ]
   ++ field_events (fields sch))%list.

(** Lines 75 to 83. *)
Definition snapshots_events (snaps : list Snapshot) : list Event :=
  Called call_snapshots ::
  match snaps with
  | [] => [ Report no_snapshots_found ]
  | _ :: _ =>
      info cat_snapshot (nl ++ "✓ Snapshots: " ++ str_len (length snaps))
      :: snapshot_events snaps
  end.

(** Lines 91 to 104. *)
Definition scan_events (df : DataFrame) : list Event :=
  ([ info cat_scan (nl ++ "✓ Scanning table data...");
     Called call_scan;
     Called call_to_pandas;
     info cat_scan ("  Record count: " ++ str_len (df_len df));
     info cat_scan ("  Columns: " ++ df_columns df) ]
   ++ (if (0 <? df_len df)%nat then
         [ info cat_scan (nl ++ "  Sample data (first 5 rows):");
           info cat_scan (df_head df);
           info cat_scan (nl ++ "  Column types:") ]
         ++ dtype_events (df_dtypes df)
       else []))%list.

(** Lines 86 to 106; [df] is read only when there is a current
    snapshot. *)
Definition current_events (current : option Snapshot) (df : DataFrame)
  : list Event :=
  Called call_current_snapshot ::
  match current with
  | Some cur =>
      info cat_snapshot (nl ++ "✓ Current snapshot: "
                         ++ str_int (snapshot_id cur))
      :: scan_events df
  | None => [ Report no_current_snapshot ]
  end.

(** Lines 109 to 115. *)
Definition summary_events (table_name props : string) (table : Table)
  : list Event :=
  [ info cat_metadata (nl ++ "✓ Additional metadata:");
    info cat_metadata ("  Last sequence number: "
                       ++ str_int (last_sequence_number (metadata table)));
    info cat_metadata ("  Last updated: "
                       ++ str_int (last_updated_ms (metadata table)));
    Called call_properties;
    info cat_metadata ("  Properties: " ++ props);
    info cat_metadata (nl ++ "✅ Table '" ++ table_name
                       ++ "' is valid and compatible with PyIceberg!");
    info cat_metadata "   All checks passed. The table structure conforms to Iceberg v2 specification." ].

(** What the handlers of lines 118 to 130 add to the trace for an
    exception caught in stage [c]. *)
Definition handler_events (c : Category) (warehouse_path table_name : string)
  (e : exn) : list Event :=
  match e with
  | NoSuchTableError _ =>
      [ Report (table_not_found c table_name);
        Report (verify_table_exists c warehouse_path) ]
  | ModuleNotFoundError _ =>
      [ Report {| severity := ERROR; category := c;
                  message := "❌ Missing Python module: " ++ str_exn e |};
        info c "   Install with: pip install pyiceberg pandas" ]
  | OtherException _ =>
      [ Report {| severity := ERROR; category := c;
                  message := "❌ Validation failed: " ++ str_exn e |};
        Traceback e ]
  | KeyboardInterrupt => []
  end.

(** The metadata a run needs to get as far as the schema check: the
    warehouse path exists, the catalog and the table load, the location
    and the schema can be read. *)
Record loads (w : World) (warehouse_path table_name : string)
  (table : Table) (sch : Schema) : Prop := {
  loads_path : os_path_exists w warehouse_path = true;
  loads_table : exists catalog,
      load_catalog w warehouse_path = Ok catalog /\
      load_table catalog table_name = Ok table;
  loads_location : exists loc, location table = Ok loc;
  loads_schema : schema table = Ok sch
}.

(** ** Properties of a run stated once *)

(** What [validate_iceberg_table] makes of the way its [try] body ended. *)
Definition finish (warehouse_path table_name : string)
  (x : list Event * Category * result bool) : list Event * Outcome bool :=
  let '(tr, c, r) := x in
  match r with
  | Ok b => (tr, Returned b)
  | Raise e =>
      if is_Exception e then
        ((tr ++ handler_events c warehouse_path table_name e)%list,
         Returned false)
      else (tr, Propagated e)
  end.

(** [m] records no ERROR finding, however it ends. *)
Definition quiet {A} (m : M A) : Prop :=
  forall c, errors (fst (fst (m c))) = [].

(** The verdict of [m] agrees with what it recorded: no ERROR finding
    when it returns [True] or raises, exactly one when it returns
    [False]. *)
Definition agrees (x : list Event * Category * result bool) : Prop :=
  let '(tr, _, r) := x in
  match r with
  | Ok false => exists f, errors tr = [f]
  | Ok true | Raise _ => errors tr = []
  end.

Definition verdict_sound (m : M bool) : Prop := forall c, agrees (m c).

(** The current snapshot is a pointer into the snapshot sequence. *)
Definition current_in_sequence (snaps : list Snapshot)
  (current : option Snapshot) : Prop :=
  forall cur, current = Some cur -> In cur snaps.


(** ** A warehouse to run the script on

    The warehouse [/tmp/wh] of the design document, with its table
    [orders] (two fields, one snapshot of three rows) and three more
    tables: [legacy], written with a field identifier 0; [empty], without
    snapshots; [dangling], whose metadata names a current snapshot that
    its snapshot list does not hold; [detached], with a snapshot and no
    current snapshot; [huge], whose scan does not finish. *)
Module Example.

Definition id_field : Field :=
  {| field_id := 1; name := "id"; field_type := "long" |}.

Definition amount_field : Field :=
  {| field_id := 2; name := "amount"; field_type := "double" |}.

Definition legacy_field : Field :=
  {| field_id := 0; name := "amount"; field_type := "double" |}.

Definition orders_schema : Schema :=
  {| schema_id := 0; fields := [id_field; amount_field] |}.

Definition legacy_schema : Schema :=
  {| schema_id := 0; fields := [id_field; legacy_field] |}.

Definition first_snapshot : Snapshot :=
  {| snapshot_id := 8271; timestamp_ms := 1700000000000;
     summary := "Summary(Operation.APPEND)" |}.

Definition three_rows : DataFrame :=
  {| df_len := 3;
     df_columns := "['id', 'amount']";
     df_head := "   id  amount";
     df_dtypes := [("id", "int64"); ("amount", "float64")] |}.

Definition orders_metadata : TableMetadata :=
  {| format_version := 2;
     table_uuid := "9c12d441-03fe-4fa4-ad66-8d3ba7e1a5b1";
     snapshots := Ok [first_snapshot];
     current_snapshot := Ok (Some first_snapshot);
     last_sequence_number := 1;
     last_updated_ms := 1700000000000 |}.

Definition orders : Table :=
  {| location := Ok "/tmp/wh/orders";
     metadata := orders_metadata;
     schema := Ok orders_schema;
     scan := Ok {| to_pandas := Ok three_rows |};
     properties := Ok "{}" |}.

Definition legacy : Table :=
  {| location := Ok "/tmp/wh/legacy";
     metadata := orders_metadata;
     schema := Ok legacy_schema;
     scan := Ok {| to_pandas := Ok three_rows |};
     properties := Ok "{}" |}.

Definition empty_metadata : TableMetadata :=
  {| format_version := 2;
     table_uuid := "5b0a7c1e-6f0d-4d0b-9a63-2f1d1c3e7a90";
     snapshots := Ok [];
     current_snapshot := Ok None;
     last_sequence_number := 0;
     last_updated_ms := 1700000000000 |}.

Definition empty : Table :=
  {| location := Ok "/tmp/wh/empty";
     metadata := empty_metadata;
     schema := Ok orders_schema;
     scan := Raise (OtherException "no snapshot to scan");
     properties := Ok "{}" |}.

Definition dangling_metadata : TableMetadata :=
  {| format_version := 2;
     table_uuid := "0d4e9a52-77c1-4a0e-8a1b-6f2f0a9b3c11";
     snapshots := Ok [];
     current_snapshot := Ok (Some first_snapshot);
     last_sequence_number := 1;
     last_updated_ms := 1700000000000 |}.

Definition dangling : Table :=
  {| location := Ok "/tmp/wh/dangling";
     metadata := dangling_metadata;
     schema := Ok orders_schema;
     scan := Ok {| to_pandas := Ok three_rows |};
     properties := Ok "{}" |}.

(** A table with history whose metadata has no current snapshot. *)
Definition detached_metadata : TableMetadata :=
  {| format_version := 2;
     table_uuid := "c7a1f0b2-1d3e-4c5f-8a9b-0e1f2a3b4c5d";
     snapshots := Ok [first_snapshot];
     current_snapshot := Ok None;
     last_sequence_number := 1;
     last_updated_ms := 1700000000000 |}.

Definition detached : Table :=
  {| location := Ok "/tmp/wh/detached";
     metadata := detached_metadata;
     schema := Ok orders_schema;
     scan := Ok {| to_pandas := Ok three_rows |};
     properties := Ok "{}" |}.

(** A table whose scan is interrupted from the keyboard. *)
Definition huge : Table :=
  {| location := Ok "/tmp/wh/huge";
     metadata := orders_metadata;
     schema := Ok orders_schema;
     scan := Ok {| to_pandas := Raise KeyboardInterrupt |};
     properties := Ok "{}" |}.

Definition catalog : Catalog :=
  {| load_table := fun table_name =>
       if String.eqb table_name "orders" then Ok orders
       else if String.eqb table_name "huge" then Ok huge
       else if String.eqb table_name "legacy" then Ok legacy
       else if String.eqb table_name "empty" then Ok empty
       else if String.eqb table_name "dangling" then Ok dangling
       else if String.eqb table_name "detached" then Ok detached
       else Raise (NoSuchTableError ("Table does not exist: " ++ table_name)) |}.

Definition wh : World :=
  {| os_path_exists := fun path => String.eqb path "/tmp/wh";
     load_catalog := fun _ => Ok catalog |}.


End Example.

(** ** The order of the calls, the place of the ERROR, the output of [main] *)

(** The collaborator calls of the script in the order of the source;
    [scanned] tells whether the metadata had a current snapshot. *)
Definition pipeline (warehouse_path table_name : string) (scanned : bool)
  : list Call :=
  ([ call_exists warehouse_path; call_load_catalog warehouse_path;
     call_load_table table_name; call_location; call_schema;
     call_snapshots; call_current_snapshot ]
   ++ (if scanned then [call_scan; call_to_pandas] else [])
   ++ [call_properties])%list.

(** [l] is the beginning of [L]. *)
Definition prefix_of {A} (l L : list A) : Prop :=
  exists rest, L = (l ++ rest)%list.

(** [m] makes the calls [L], in this order, when it runs to its end, and
    a beginning of [L] when it raises. *)
Definition asks {A} (L : list Call) (m : M A) : Prop :=
  forall c,
    let '(tr, _, r) := m c in
    match r with
    | Ok _ => calls tr = L
    | Raise _ => prefix_of (calls tr) L
    end.

(** [m] makes the calls [L] and yields a value that satisfies [Q] when
    it runs to its end, and a beginning of [L] when it raises. *)
Definition asks_with {A} (L : list Call) (Q : A -> Prop) (m : M A) : Prop :=
  forall c,
    let '(tr, _, r) := m c in
    match r with
    | Ok a => calls tr = L /\ Q a
    | Raise _ => prefix_of (calls tr) L
    end.

(** [m] makes a beginning of the calls [L], and all of them when it
    returns [True]. *)
Definition asks_within (L : list Call) (m : M bool) : Prop :=
  forall c,
    let '(tr, _, r) := m c in
    match r with
    | Ok true => calls tr = L
    | _ => prefix_of (calls tr) L
    end.

(** [table.metadata.current_snapshot()] returns a snapshot. *)
Definition table_has_current (table : Table) : bool :=
  match current_snapshot (metadata table) with
  | Ok (Some _) => true
  | _ => false
  end.

(** The table of that name in that warehouse loads and its metadata has
    a current snapshot. *)
Definition has_current (w : World) (warehouse_path table_name : string)
  : bool :=
  match load_catalog w warehouse_path with
  | Ok catalog =>
      match load_table catalog table_name with
      | Ok table => table_has_current table
      | Raise _ => false
      end
  | Raise _ => false
  end.

(** The ERROR finding is the last thing a computation does: a body that
    returns [False] ends with its one ERROR finding, and a body that
    returns [True] or raises has none. *)
Definition fails_last (x : list Event * Category * result bool) : Prop :=
  let '(tr, _, r) := x in
  match r with
  | Ok false =>
      exists before err,
        tr = (before ++ [Report err])%list /\
        errors before = [] /\ severity err = ERROR
  | Ok true | Raise _ => errors tr = []
  end.

(** An event of the validation itself: a line of the report or a call. *)
Definition of_validation (ev : Event) : Prop :=
  match ev with
  | Report _ | Called _ => True
  | Stdout _ | Traceback _ => False
  end.

(** Every event of [m] satisfies [P]. *)
Definition always {A} (P : Event -> Prop) (m : M A) : Prop :=
  forall c, Forall P (fst (fst (m c))).

(** The lines [main] prints. *)
Fixpoint stdout (tr : list Event) : list string :=
  match tr with
  | [] => []
  | Stdout text :: rest => text :: stdout rest
  | _ :: rest => stdout rest
  end.

(** The WARNING of line 55. *)
Definition unexpected_format_version (table : Table) : Finding :=
  {| severity := WARNING; category := cat_metadata;
     message := "  ⚠️  WARNING: Format version is "
                ++ str_int (format_version (metadata table))
                ++ ", expected 2" |}.

(** The ERROR of line 127. *)
Definition validation_failed (stage : Category) (e : exn) : Finding :=
  {| severity := ERROR; category := stage;
     message := "❌ Validation failed: " ++ str_exn e |}.

(** The collaborators answer every question of a run on [table]: the
    metadata loads, the snapshots and the current snapshot can be read,
    the scan decodes to [df] when there is a current snapshot, and the
    properties can be read. *)
Record readable (w : World) (warehouse_path table_name : string)
  (table : Table) (sch : Schema) (snaps : list Snapshot)
  (current : option Snapshot) (df : DataFrame) (props : string) : Prop := {
  readable_loads : loads w warehouse_path table_name table sch;
  readable_snapshots : snapshots (metadata table) = Ok snaps;
  readable_current : current_snapshot (metadata table) = Ok current;
  readable_scan : current <> None ->
                  exists sc, scan table = Ok sc /\ to_pandas sc = Ok df;
  readable_properties : properties table = Ok props
}.

(** A second warehouse: [archive] is a version 1 table with no rows,
    [corrupt] a table whose data files do not decode, [renumbered] a
    table in which two field identifiers are not positive. *)
Module Cases.

Definition no_rows : DataFrame :=
  {| df_len := 0; df_columns := "['id', 'amount']"; df_head := "";
     df_dtypes := [("id", "int64"); ("amount", "float64")] |}.

Definition archive_metadata : TableMetadata :=
  {| format_version := 1;
     table_uuid := "a3f1c2d4-5b6e-4f70-8192-a3b4c5d6e7f8";
     snapshots := Ok [Example.first_snapshot];
     current_snapshot := Ok (Some Example.first_snapshot);
     last_sequence_number := 0;
     last_updated_ms := 1600000000000 |}.

Definition archive : Table :=
  {| location := Ok "/data/wh/archive";
     metadata := archive_metadata;
     schema := Ok Example.orders_schema;
     scan := Ok {| to_pandas := Ok no_rows |};
     properties := Ok "{}" |}.

Definition corrupt : Table :=
  {| location := Ok "/data/wh/corrupt";
     metadata := Example.orders_metadata;
     schema := Ok Example.orders_schema;
     scan := Ok {| to_pandas :=
                     Raise (OtherException "Parquet magic bytes not found") |};
     properties := Ok "{}" |}.

Definition renumbered_schema : Schema :=
  {| schema_id := 1;
     fields := [ {| field_id := -1; name := "id"; field_type := "long" |};
                 Example.amount_field;
                 {| field_id := 0; name := "note"; field_type := "string" |} ] |}.

Definition renumbered : Table :=
  {| location := Ok "/data/wh/renumbered";
     metadata := Example.orders_metadata;
     schema := Ok renumbered_schema;
     scan := Ok {| to_pandas := Ok Example.three_rows |};
     properties := Ok "{}" |}.

Definition catalog : Catalog :=
  {| load_table := fun table_name =>
       if String.eqb table_name "archive" then Ok archive
       else if String.eqb table_name "corrupt" then Ok corrupt
       else if String.eqb table_name "renumbered" then Ok renumbered
       else Raise (NoSuchTableError ("Table does not exist: " ++ table_name)) |}.

Definition wh : World :=
  {| os_path_exists := fun path => String.eqb path "/data/wh";
     load_catalog := fun _ => Ok catalog |}.

End Cases.

(** ** Output that can fail

    [print] and [traceback.print_exc()] write to the streams of the
    process, and a write can raise: [UnicodeEncodeError] when the
    encoding of standard output lacks a character of the line,
    [BrokenPipeError] when the reader has gone, [KeyboardInterrupt].
    A [Console] gives what each write does.  The definitions above are
    the script on a console that accepts every line; the module
    [Printing] is the script again, statement for statement, on any
    console, together with the import statements and the call of [main]
    at the bottom of the file. *)
Record Console : Type := {
  write_out : string -> result unit;   (* print(text) *)
  write_err : exn -> result unit       (* traceback.print_exc() *)
}.

(** A console that accepts every line. *)
Definition reliable : Console :=
  {| write_out := fun _ => Ok tt; write_err := fun _ => Ok tt |}.

Module Printing.

Section Script.

Variable console : Console.

(** [print(text)] inside [validate_iceberg_table]. *)
Definition say (sev : Severity) (text : string) : M unit :=
  fun c =>
    match write_out console text with
    | Ok _ =>
        ([Report {| severity := sev; category := c; message := text |}],
         c, Ok tt)
    | Raise e => ([], c, Raise e)
    end.

(** [print(text)] inside [main]. *)
Definition shout (text : string) : M unit :=
  fun c =>
    match write_out console text with
    | Ok _ => ([Stdout text], c, Ok tt)
    | Raise e => ([], c, Raise e)
    end.

(** [traceback.print_exc()]. *)
Definition print_exc (e : exn) : M unit :=
  fun c =>
    match write_err console e with
    | Ok _ => ([Traceback e], c, Ok tt)
    | Raise e' => ([], c, Raise e')
    end.

Definition field_loop (field : Field) (field_id_issues : bool) : M bool :=
  say INFO ("    - Field " ++ str_int (field_id field) ++ ": " ++ name field
            ++ " (" ++ field_type field ++ ")") ;;
  if field_id field <=? 0 then
    say WARNING ("      ⚠️  WARNING: Invalid field ID "
                 ++ str_int (field_id field)) ;;
    ret true
  else
    ret field_id_issues.

Definition snapshot_loop (snapshot : Snapshot) (_ : unit) : M unit :=
  say INFO ("  - Snapshot " ++ str_int (snapshot_id snapshot)) ;;
  say INFO ("    Timestamp: " ++ str_int (timestamp_ms snapshot)) ;;
  say INFO ("    Summary: " ++ summary snapshot).

Definition dtype_loop (item : string * string) (_ : unit) : M unit :=
  let '(col, dtype) := item in
  say INFO ("    " ++ col ++ ": " ++ dtype).

(** Lines 58 to 68. *)
Definition validate_schema (table : Table) : M bool :=
  enter cat_schema ;;
  sch <- call call_schema (schema table) ;;
  say INFO (nl ++ "✓ Schema validation:") ;;
  say INFO ("  Schema ID: " ++ str_int (schema_id sch)) ;;
  say INFO ("  Field count: " ++ str_len (length (fields sch))) ;;
  for_each (fields sch) false field_loop.

(** Lines 75 to 83. *)
Definition validate_snapshots (table : Table) : M unit :=
  enter cat_snapshot ;;
  snaps <- call call_snapshots (snapshots (metadata table)) ;;
  match snaps with
  | [] => say WARNING (nl ++ "⚠️  WARNING: No snapshots found (table is empty)")
  | _ :: _ =>
      say INFO (nl ++ "✓ Snapshots: " ++ str_len (length snaps)) ;;
      for_each snaps tt snapshot_loop
  end.

(** Lines 91 to 104. *)
Definition scan_table (table : Table) : M unit :=
  enter cat_scan ;;
  say INFO (nl ++ "✓ Scanning table data...") ;;
  sc <- call call_scan (scan table) ;;
  df <- call call_to_pandas (to_pandas sc) ;;
  say INFO ("  Record count: " ++ str_len (df_len df)) ;;
  say INFO ("  Columns: " ++ df_columns df) ;;
  if (0 <? df_len df)%nat then
    say INFO (nl ++ "  Sample data (first 5 rows):") ;;
    say INFO (df_head df) ;;
    say INFO (nl ++ "  Column types:") ;;
    for_each (df_dtypes df) tt dtype_loop
  else pass.

(** Lines 86 to 106. *)
Definition validate_current_snapshot (table : Table) : M unit :=
  current <- call call_current_snapshot (current_snapshot (metadata table)) ;;
  match current with
  | Some cur =>
      say INFO (nl ++ "✓ Current snapshot: " ++ str_int (snapshot_id cur)) ;;
      scan_table table
  | None =>
      say WARNING (nl ++ "⚠️  No current snapshot (empty table)")
  end.

(** Lines 109 to 116. *)
Definition additional_metadata (table : Table) (table_name : string)
  : M bool :=
  enter cat_metadata ;;
  say INFO (nl ++ "✓ Additional metadata:") ;;
  say INFO ("  Last sequence number: "
            ++ str_int (last_sequence_number (metadata table))) ;;
  say INFO ("  Last updated: " ++ str_int (last_updated_ms (metadata table))) ;;
  props <- call call_properties (properties table) ;;
  say INFO ("  Properties: " ++ props) ;;
  say INFO (nl ++ "✅ Table '" ++ table_name
            ++ "' is valid and compatible with PyIceberg!") ;;
  say INFO ("   All checks passed. The table structure conforms to Iceberg v2 specification.") ;;
  ret true.

(** Lines 46 to 55. *)
Definition load_and_describe (catalog : Catalog) (table_name : string)
  : M Table :=
  table <- call (call_load_table table_name) (load_table catalog table_name) ;;
  say INFO ("✓ Successfully loaded table: " ++ table_name) ;;
  loc <- call call_location (location table) ;;
  say INFO ("  Location: " ++ loc) ;;
  say INFO ("  Format version: " ++ str_int (format_version (metadata table))) ;;
  say INFO ("  Table UUID: " ++ table_uuid (metadata table)) ;;
  (if negb (format_version (metadata table) =? 2) then
     say WARNING ("  ⚠️  WARNING: Format version is "
                  ++ str_int (format_version (metadata table))
                  ++ ", expected 2")
   else pass) ;;
  ret table.

(** Lines 31 to 116. *)
Definition validate_body (w : World) (warehouse_path table_name : string)
  : M bool :=
  found <- call (call_exists warehouse_path)
                (Ok (os_path_exists w warehouse_path)) ;;
  if negb found then
    say ERROR ("❌ Warehouse path does not exist: " ++ warehouse_path) ;;
    ret false
  else
  catalog <- call (call_load_catalog warehouse_path)
                  (load_catalog w warehouse_path) ;;
  table <- load_and_describe catalog table_name ;;
  field_id_issues <- validate_schema table ;;
  if field_id_issues : bool then
    say ERROR (nl ++ "❌ Field ID issues detected - schema evolution may not work correctly") ;;
    ret false
  else
  validate_snapshots table ;;
  validate_current_snapshot table ;;
  additional_metadata table table_name.

(** Lines 118 to 130. *)
Definition validate_handlers (warehouse_path table_name : string) (e : exn)
  : option (M bool) :=
  match e with
  | NoSuchTableError _ => Some (
      say ERROR ("❌ Table not found: " ++ table_name) ;;
      say INFO ("   Verify the table exists in warehouse: " ++ warehouse_path) ;;
      ret false)
  | ModuleNotFoundError _ => Some (
      say ERROR ("❌ Missing Python module: " ++ str_exn e) ;;
      say INFO ("   Install with: pip install pyiceberg pandas") ;;
      ret false)
  | OtherException _ => Some (
      say ERROR ("❌ Validation failed: " ++ str_exn e) ;;
      print_exc e ;;
      ret false)
  | KeyboardInterrupt => None
  end.

(** Lines 19 to 130, as [main] calls it. *)
Definition validate_iceberg_table (w : World)
  (warehouse_path table_name : string) : M bool :=
  try_except (validate_body w warehouse_path table_name)
             (validate_handlers warehouse_path table_name).

(** Lines 132 to 162; the value is the argument of [sys.exit]. *)
Definition main (w : World) (argv : list string) : M Z :=
  if negb (length argv =? 3)%nat then
    for_each usage tt (fun line _ => shout line) ;;
    ret 1
  else
    let warehouse := nth 1 argv "" in
    let table := nth 2 argv "" in
    shout rule ;;
    shout "Iceberg Table Validation (PyIceberg)" ;;
    shout rule ;;
    shout ("Warehouse: " ++ warehouse) ;;
    shout ("Table: " ++ table) ;;
    shout rule ;;
    shout "" ;;
    success <- validate_iceberg_table w warehouse table ;;
    shout "" ;;
    shout rule ;;
    (if success : bool then shout "RESULT: PASSED ✅"
     else shout "RESULT: FAILED ❌") ;;
    shout rule ;;
    ret (if success then 0 else 1).

End Script.

End Printing.

(** A run of [validate_iceberg_table] on a console. *)
Definition validate_on (console : Console) (w : World)
  (warehouse_path table_name : string) : list Event * Outcome bool :=
  run (Printing.validate_iceberg_table console w warehouse_path table_name).






(** ** Lemmas on the monad and the loops *)

Lemma prepend_nil {A} (x : list Event * Category * result A) :
  prepend [] x = x.
Proof. now destruct x as [[es c] r]. Qed.

Lemma prepend_prepend {A} (es1 es2 : list Event)
  (x : list Event * Category * result A) :
  prepend es1 (prepend es2 x) = prepend (es1 ++ es2) x.
Proof. destruct x as [[es c] r]. cbn. now rewrite app_assoc. Qed.

Lemma prepend_done {A} (es1 es2 : list Event) (c : Category) (r : result A) :
  prepend es1 (es2, c, r) = ((es1 ++ es2)%list, c, r).
Proof. reflexivity. Qed.

Lemma bind_assoc {A B C} (m : M A) (k : A -> M B) (k' : B -> M C)
  (c : Category) :
  bind (bind m k) k' c = bind m (fun a => bind (k a) k') c.
Proof.
  unfold bind. destruct (m c) as [[es1 c1] [a|e]]; [|reflexivity].
  destruct (k a c1) as [[es2 c2] [b|e]]; cbn [prepend]; [|reflexivity].
  destruct (k' b c2) as [[es3 c3] r]. cbn [prepend]. now rewrite app_assoc.
Qed.

Section Monad.

Context {A B : Type}.

Lemma bind_ret (a : A) (k : A -> M B) (c : Category) :
  bind (ret a) k c = k a c.
Proof. unfold bind, ret. apply prepend_nil. Qed.

Lemma bind_pass (k : unit -> M B) (c : Category) : bind pass k c = k tt c.
Proof. unfold bind, pass, ret. apply prepend_nil. Qed.

Lemma bind_say (sev : Severity) (text : string) (k : unit -> M B)
  (c : Category) :
  bind (say sev text) k c =
    prepend [Report {| severity := sev; category := c; message := text |}]
            (k tt c).
Proof. reflexivity. Qed.

Lemma bind_enter (stage : Category) (k : unit -> M B) (c : Category) :
  bind (enter stage) k c = k tt stage.
Proof. unfold bind, enter. apply prepend_nil. Qed.

Lemma bind_call_ok (what : Call) (a : A) (k : A -> M B) (c : Category) :
  bind (call what (Ok a)) k c = prepend [Called what] (k a c).
Proof. reflexivity. Qed.

Lemma bind_call_raise (what : Call) (e : exn) (k : A -> M B) (c : Category) :
  bind (call what (@Raise A e)) k c = ([Called what], c, Raise e).
Proof. reflexivity. Qed.

Lemma bind_print_exc (e : exn) (k : unit -> M B) (c : Category) :
  bind (print_exc e) k c = prepend [Traceback e] (k tt c).
Proof. reflexivity. Qed.

(** A computation that ran to its end. *)
Lemma bind_run (m : M A) (k : A -> M B) (c c' : Category)
  (es : list Event) (a : A) :
  m c = (es, c', Ok a) -> bind m k c = prepend es (k a c').
Proof. intros H. unfold bind. now rewrite H. Qed.

(** A computation that raised. *)
Lemma bind_raised (m : M A) (k : A -> M B) (c c' : Category)
  (es : list Event) (e : exn) :
  m c = (es, c', Raise e) -> bind m k c = (es, c', Raise e).
Proof. intros H. unfold bind. now rewrite H. Qed.

End Monad.

Lemma ret_run {A} (a : A) (c : Category) : ret a c = ([], c, Ok a).
Proof. reflexivity. Qed.

Lemma pass_run (c : Category) : pass c = ([], c, Ok tt).
Proof. reflexivity. Qed.

Lemma say_run (sev : Severity) (text : string) (c : Category) :
  say sev text c =
    ([Report {| severity := sev; category := c; message := text |}], c, Ok tt).
Proof. reflexivity. Qed.

Lemma call_run {A} (what : Call) (answer : result A) (c : Category) :
  call what answer c = ([Called what], c, answer).
Proof. reflexivity. Qed.

Create Rewrite HintDb py.
#[local] Hint Rewrite @bind_assoc @bind_ret @bind_pass @bind_say @bind_enter @bind_call_ok
  @bind_call_raise @bind_print_exc @ret_run @pass_run @say_run @call_run
  @prepend_done @prepend_prepend @app_nil_r : py.

(** One step of the script: the next statement is executed, with the
    answer a hypothesis gives for the collaborator it calls. *)
Ltac py_answer :=
  match goal with
  | H : ?x = _ |- context [call _ ?x] => rewrite H
  | H : ?x = _ |- context [if negb ?x then _ else _] => rewrite H
  | H : ?x = _ |- context [if ?x then _ else _] => rewrite H
  end.

Ltac py_run :=
  repeat first [ progress autorewrite with py
               | progress cbv beta iota
               | progress cbn [negb orb app]
               | py_answer ].

(** A case analysis on what the next statement depends on: the answer
    of the collaborator it calls, or the condition it tests. *)
Ltac py_case :=
  match goal with
  | |- context [bind (call _ ?x) _ _] => destruct x eqn:?
  | |- context [bind (if ?b then _ else _) _ _] => destruct b eqn:?
  | |- context [bind (match ?x with [] => _ | _ :: _ => _ end) _ _] =>
      destruct x eqn:?
  | |- context [bind (match ?x with Some _ => _ | None => _ end) _ _] =>
      destruct x eqn:?
  | |- context [(if ?b then _ else _) ?c] =>
      match type of c with Category => destruct b eqn:? end
  | |- context [(match ?x with [] => _ | _ :: _ => _ end) ?c] =>
      match type of c with Category => destruct x eqn:? end
  | |- context [(match ?x with Some _ => _ | None => _ end) ?c] =>
      match type of c with Category => destruct x eqn:? end
  end.

Section Lists.

Lemma findings_app (a b : list Event) :
  findings (a ++ b) = (findings a ++ findings b)%list.
Proof.
  induction a as [|[f|s|e|c] a IH]; cbn; now rewrite ?IH.
Qed.

Lemma calls_app (a b : list Event) :
  calls (a ++ b) = (calls a ++ calls b)%list.
Proof.
  induction a as [|[f|s|e|c] a IH]; cbn; now rewrite ?IH.
Qed.

Lemma findings_reports (fs : list Finding) : findings (map Report fs) = fs.
Proof. induction fs as [|f fs IH]; cbn; now rewrite ?IH. Qed.

Lemma calls_reports (fs : list Finding) : calls (map Report fs) = [].
Proof. induction fs as [|f fs IH]; cbn; now rewrite ?IH. Qed.

Lemma errors_app (a b : list Event) :
  errors (a ++ b) = (errors a ++ errors b)%list.
Proof. unfold errors. now rewrite findings_app, filter_app. Qed.

Lemma errors_report (f : Finding) (tr : list Event) :
  errors (Report f :: tr) = if is_error f then f :: errors tr else errors tr.
Proof. reflexivity. Qed.

Lemma errors_info (c : Category) (text : string) (tr : list Event) :
  errors (info c text :: tr) = errors tr.
Proof. reflexivity. Qed.

Lemma errors_called (c : Call) (tr : list Event) :
  errors (Called c :: tr) = errors tr.
Proof. reflexivity. Qed.

Lemma errors_traceback (e : exn) (tr : list Event) :
  errors (Traceback e :: tr) = errors tr.
Proof. reflexivity. Qed.

Lemma calls_report (f : Finding) (tr : list Event) :
  calls (Report f :: tr) = calls tr.
Proof. reflexivity. Qed.

Lemma calls_info (c : Category) (text : string) (tr : list Event) :
  calls (info c text :: tr) = calls tr.
Proof. reflexivity. Qed.

Lemma calls_called (c : Call) (tr : list Event) :
  calls (Called c :: tr) = c :: calls tr.
Proof. reflexivity. Qed.

Lemma findings_called (c : Call) (tr : list Event) :
  findings (Called c :: tr) = findings tr.
Proof. reflexivity. Qed.

Lemma findings_report (f : Finding) (tr : list Event) :
  findings (Report f :: tr) = f :: findings tr.
Proof. reflexivity. Qed.

Lemma findings_info (c : Category) (text : string) (tr : list Event) :
  findings (info c text :: tr) =
    {| severity := INFO; category := c; message := text |} :: findings tr.
Proof. reflexivity. Qed.

(** The calls of each stage. *)
Lemma calls_describe_events (table_name loc : string) (table : Table) :
  calls (describe_events table_name loc table) =
    [call_load_table table_name; call_location].
Proof.
  unfold describe_events, format_warning.
  now destruct (negb (format_version (metadata table) =? 2)).
Qed.

Lemma calls_metadata_events (warehouse_path table_name loc : string)
  (table : Table) :
  calls (metadata_events warehouse_path table_name loc table) =
    [call_exists warehouse_path; call_load_catalog warehouse_path;
     call_load_table table_name; call_location].
Proof.
  unfold metadata_events. cbn [calls]. now rewrite calls_describe_events.
Qed.

Lemma calls_schema_events (sch : Schema) :
  calls (schema_events sch) = [call_schema].
Proof.
  unfold schema_events, field_events. cbn [app calls info].
  now rewrite calls_reports.
Qed.

Lemma calls_snapshots_events (snaps : list Snapshot) :
  calls (snapshots_events snaps) = [call_snapshots].
Proof.
  unfold snapshots_events, snapshot_events.
  destruct snaps; cbn [calls info]; now rewrite ?calls_reports.
Qed.

Lemma calls_dtype_events (items : list (string * string)) :
  calls (dtype_events items) = [].
Proof. induction items as [|i items IH]; [reflexivity | exact IH]. Qed.

Lemma calls_scan_events (df : DataFrame) :
  calls (scan_events df) = [call_scan; call_to_pandas].
Proof.
  unfold scan_events. destruct (0 <? df_len df)%nat; cbn [app calls info].
  - now rewrite calls_dtype_events.
  - reflexivity.
Qed.

Lemma calls_summary_events (table_name props : string) (table : Table) :
  calls (summary_events table_name props table) = [call_properties].
Proof. reflexivity. Qed.

(** The categories of each stage. *)
Lemma category_describe_events (table_name loc : string) (table : Table)
  (f : Finding) :
  In f (findings (describe_events table_name loc table)) ->
  category f = cat_metadata.
Proof.
  unfold describe_events, format_warning.
  destruct (negb (format_version (metadata table) =? 2)); cbn;
    intuition (subst; reflexivity).
Qed.

Lemma category_field_events (fs : list Field) (f : Finding) :
  In f (findings (field_events fs)) -> category f = cat_schema.
Proof.
  unfold field_events. rewrite findings_reports, in_flat_map.
  intros (x & _ & H). unfold field_findings in H.
  destruct (field_id x <=? 0); cbn in H; intuition (subst; reflexivity).
Qed.

Lemma category_schema_events (sch : Schema) (f : Finding) :
  In f (findings (schema_events sch)) -> category f = cat_schema.
Proof.
  unfold schema_events. rewrite findings_app, in_app_iff.
  intros [H|H]; [|now apply category_field_events in H].
  cbn in H. intuition (subst; reflexivity).
Qed.

End Lists.

Section Loops.

Lemma field_loop_run (fs : list Field) : forall (acc : bool),
  for_each fs acc field_loop cat_schema =
    (field_events fs, cat_schema,
     Ok (acc || existsb (fun f => field_id f <=? 0) fs)).
Proof.
  induction fs as [|f rest IH]; intros acc.
  - cbn. now rewrite orb_false_r.
  - cbn [for_each]. unfold field_loop at 1.
    unfold field_events, field_findings. cbn [flat_map existsb].
    destruct (field_id f <=? 0) eqn:E.
    + rewrite (bind_run _ _ _ cat_schema [Report (field_info f);
                                    Report (invalid_field_id f)] true).
      * rewrite IH. cbn. now rewrite orb_true_r.
      * now py_run.
    + rewrite (bind_run _ _ _ cat_schema [Report (field_info f)] acc).
      * rewrite IH. reflexivity.
      * now py_run.
Qed.

Lemma snapshot_loop_run (ss : list Snapshot) :
  for_each ss tt snapshot_loop cat_snapshot =
    (snapshot_events ss, cat_snapshot, Ok tt).
Proof.
  induction ss as [|s rest IH].
  - reflexivity.
  - cbn [for_each].
    rewrite (bind_run _ _ _ cat_snapshot (map Report (snapshot_findings s)) tt).
    + rewrite IH. reflexivity.
    + unfold snapshot_loop. now py_run.
Qed.

Lemma dtype_loop_run (items : list (string * string)) :
  for_each items tt dtype_loop cat_scan =
    (dtype_events items, cat_scan, Ok tt).
Proof.
  induction items as [|[col dtype] rest IH].
  - reflexivity.
  - cbn [for_each].
    rewrite (bind_run _ _ _ cat_scan [Report (dtype_finding (col, dtype))] tt).
    + rewrite IH. reflexivity.
    + reflexivity.
Qed.

Lemma bind_field_loop {B} (fs : list Field) (acc : bool) (k : bool -> M B) :
  bind (for_each fs acc field_loop) k cat_schema =
    prepend (field_events fs)
            (k (acc || existsb (fun f => field_id f <=? 0) fs) cat_schema).
Proof. apply bind_run, field_loop_run. Qed.

Lemma bind_snapshot_loop {B} (ss : list Snapshot) (k : unit -> M B) :
  bind (for_each ss tt snapshot_loop) k cat_snapshot =
    prepend (snapshot_events ss) (k tt cat_snapshot).
Proof. apply bind_run, snapshot_loop_run. Qed.

End Loops.

#[local] Hint Rewrite @bind_field_loop @bind_snapshot_loop
  @snapshot_loop_run @dtype_loop_run : py.

(** ** The [try] statement at the boundary of the function *)

Lemma validate_finish (w : World) (warehouse_path table_name : string) :
  validate_iceberg_table w warehouse_path table_name =
    finish warehouse_path table_name
           (validate_body w warehouse_path table_name cat_metadata).
Proof.
  unfold validate_iceberg_table, run, try_except, finish.
  destruct (validate_body w warehouse_path table_name cat_metadata)
    as [[tr c] [b|e]]; [reflexivity|].
  destruct e; cbn; now rewrite ?app_nil_r.
Qed.

Lemma finish_prepend (warehouse_path table_name : string) (es : list Event)
  (x : list Event * Category * result bool) :
  finish warehouse_path table_name (prepend es x) =
    ((es ++ fst (finish warehouse_path table_name x))%list,
     snd (finish warehouse_path table_name x)).
Proof.
  destruct x as [[tr c] [b|e]]; cbn; [reflexivity|].
  destruct (is_Exception e); cbn; now rewrite ?app_assoc.
Qed.

(** ** The stages, when the collaborators answer *)

Section Stages.

Variables (table : Table) (table_name : string).

Lemma load_and_describe_run (catalog : Catalog) (loc : string) :
  load_table catalog table_name = Ok table ->
  location table = Ok loc ->
  load_and_describe catalog table_name cat_metadata =
    (describe_events table_name loc table, cat_metadata, Ok table).
Proof.
  intros H1 H2. unfold load_and_describe, describe_events, format_warning.
  py_run. py_case; now py_run.
Qed.

Lemma validate_schema_run (sch : Schema) (c : Category) :
  schema table = Ok sch ->
  validate_schema table c = (schema_events sch, cat_schema, Ok (has_bad_field sch)).
Proof.
  intros H. unfold validate_schema, schema_events, has_bad_field.
  py_run. now rewrite field_loop_run.
Qed.

Lemma validate_snapshots_run (snaps : list Snapshot) (c : Category) :
  snapshots (metadata table) = Ok snaps ->
  validate_snapshots table c = (snapshots_events snaps, cat_snapshot, Ok tt).
Proof.
  intros H. unfold validate_snapshots, snapshots_events.
  py_run. destruct snaps; now py_run.
Qed.

Lemma scan_table_run (sc : DataScan) (df : DataFrame) (c : Category) :
  scan table = Ok sc ->
  to_pandas sc = Ok df ->
  scan_table table c = (scan_events df, cat_scan, Ok tt).
Proof.
  intros H1 H2. unfold scan_table, scan_events.
  py_run. destruct (0 <? df_len df)%nat; now py_run.
Qed.

Lemma no_current_snapshot_run :
  current_snapshot (metadata table) = Ok None ->
  validate_current_snapshot table cat_snapshot =
    ([Called call_current_snapshot; Report no_current_snapshot],
     cat_snapshot, Ok tt).
Proof. intros H. unfold validate_current_snapshot. now py_run. Qed.

Lemma additional_metadata_run (props : string) (c : Category) :
  properties table = Ok props ->
  additional_metadata table table_name c =
    (summary_events table_name props table, cat_metadata, Ok true).
Proof. intros H. unfold additional_metadata, summary_events. now py_run. Qed.

End Stages.

(** ** ERROR findings and the verdict *)

Lemma quiet_ret {A} (a : A) : quiet (ret a).
Proof. intros c. reflexivity. Qed.

Lemma quiet_pass : quiet pass.
Proof. intros c. reflexivity. Qed.

Lemma quiet_enter (stage : Category) : quiet (enter stage).
Proof. intros c. reflexivity. Qed.

Lemma quiet_call {A} (what : Call) (answer : result A) : quiet (call what answer).
Proof. intros c. reflexivity. Qed.

Lemma quiet_info (text : string) : quiet (say INFO text).
Proof. intros c. reflexivity. Qed.

Lemma quiet_warning (text : string) : quiet (say WARNING text).
Proof. intros c. reflexivity. Qed.

Lemma quiet_bind {A B} (m : M A) (k : A -> M B) :
  quiet m -> (forall a, quiet (k a)) -> quiet (bind m k).
Proof.
  intros Hm Hk c. unfold bind. specialize (Hm c).
  destruct (m c) as [[es1 c1] [a|e]]; cbn [fst] in Hm |- *; [|assumption].
  specialize (Hk a c1). destruct (k a c1) as [[es2 c2] r2].
  cbn [prepend fst] in Hk |- *. now rewrite errors_app, Hm, Hk.
Qed.

Lemma quiet_if {A} (b : bool) (m1 m2 : M A) :
  quiet m1 -> quiet m2 -> quiet (if b then m1 else m2).
Proof. now destruct b. Qed.

Lemma quiet_for_each {A B} (xs : list B) (body : B -> A -> M A) :
  (forall x acc, quiet (body x acc)) -> forall acc, quiet (for_each xs acc body).
Proof.
  intros Hbody. induction xs as [|x rest IH]; intros acc; cbn [for_each].
  - apply quiet_ret.
  - apply quiet_bind; [apply Hbody | intros; apply IH].
Qed.

Create HintDb quiet.
#[local] Hint Resolve quiet_ret quiet_pass quiet_enter quiet_call quiet_info
  quiet_warning : quiet.

Ltac quiet_steps :=
  repeat first [ apply quiet_bind; [|intros]
               | apply quiet_for_each; intros
               | apply quiet_if
               | match goal with
                 | |- quiet (match ?x with _ => _ end) => destruct x
                 end
               | solve [auto with quiet] ].

Section Verdict.

Lemma quiet_field_loop (f : Field) (acc : bool) : quiet (field_loop f acc).
Proof. unfold field_loop. quiet_steps. Qed.

Lemma quiet_snapshot_loop (s : Snapshot) (u : unit) : quiet (snapshot_loop s u).
Proof. unfold snapshot_loop. quiet_steps. Qed.

Lemma quiet_dtype_loop (item : string * string) (u : unit) :
  quiet (dtype_loop item u).
Proof. unfold dtype_loop. quiet_steps. Qed.

#[local] Hint Resolve quiet_field_loop quiet_snapshot_loop quiet_dtype_loop
  : quiet.

Lemma quiet_load_and_describe (catalog : Catalog) (table_name : string) :
  quiet (load_and_describe catalog table_name).
Proof. unfold load_and_describe. quiet_steps. Qed.

Lemma quiet_validate_schema (table : Table) : quiet (validate_schema table).
Proof. unfold validate_schema. quiet_steps. Qed.

Lemma quiet_validate_snapshots (table : Table) :
  quiet (validate_snapshots table).
Proof. unfold validate_snapshots. quiet_steps. Qed.

Lemma quiet_scan_table (table : Table) : quiet (scan_table table).
Proof. unfold scan_table. quiet_steps. Qed.

#[local] Hint Resolve quiet_scan_table : quiet.

Lemma quiet_validate_current_snapshot (table : Table) :
  quiet (validate_current_snapshot table).
Proof. unfold validate_current_snapshot. quiet_steps. Qed.

Lemma sound_after_quiet {A} (m : M A) (k : A -> M bool) :
  quiet m -> (forall a, verdict_sound (k a)) -> verdict_sound (bind m k).
Proof.
  intros Hm Hk c. unfold bind. specialize (Hm c).
  destruct (m c) as [[es1 c1] [a|e]]; cbn [fst agrees] in Hm |- *;
    [|assumption].
  specialize (Hk a c1). destruct (k a c1) as [[es2 c2] r2].
  cbn [prepend agrees] in Hk |- *. rewrite errors_app, Hm. exact Hk.
Qed.

Lemma sound_failure (text : string) :
  verdict_sound (say ERROR text ;; ret false).
Proof. intros c. cbn. eauto. Qed.

Lemma sound_success : verdict_sound (ret true).
Proof. intros c. reflexivity. Qed.

Lemma sound_additional_metadata (table : Table) (table_name : string) :
  verdict_sound (additional_metadata table table_name).
Proof.
  unfold additional_metadata.
  repeat (apply sound_after_quiet; [auto with quiet | intros]).
  apply sound_success.
Qed.

Lemma sound_validate_body (w : World) (warehouse_path table_name : string) :
  verdict_sound (validate_body w warehouse_path table_name).
Proof.
  unfold validate_body.
  apply sound_after_quiet; [auto with quiet | intros found].
  destruct (negb found); [apply sound_failure|].
  apply sound_after_quiet; [auto with quiet | intros catalog].
  apply sound_after_quiet; [apply quiet_load_and_describe | intros table].
  apply sound_after_quiet; [apply quiet_validate_schema | intros issues].
  destruct issues; [apply sound_failure|].
  apply sound_after_quiet; [apply quiet_validate_snapshots | intros _].
  apply sound_after_quiet; [apply quiet_validate_current_snapshot | intros _].
  apply sound_additional_metadata.
Qed.

End Verdict.

(** The verdict and the report agree on every run: a run that returns
    [True] has no ERROR finding, a run that returns [False] has exactly
    one, and only an exception outside [Exception] leaves the function. *)
Lemma verdict_agrees (w : World) (warehouse_path table_name : string) :
  match validate_iceberg_table w warehouse_path table_name with
  | (tr, Returned true) => errors tr = []
  | (tr, Returned false) => exists f, errors tr = [f]
  | (tr, Propagated e) => is_Exception e = false /\ errors tr = []
  end.
Proof.
  rewrite validate_finish.
  pose proof (sound_validate_body w warehouse_path table_name cat_metadata)
    as H.
  destruct (validate_body w warehouse_path table_name cat_metadata)
    as [[tr c] [[|]|e]]; cbn in H |- *; try assumption.
  destruct e; cbn; rewrite ?errors_app, ?H; cbn; eauto.
Qed.

(** ** Text of the messages *)

Section Text.

Lemma append_nil_r (s : string) : s ++ "" = s.
Proof. induction s as [|a s IH]; cbn; now rewrite ?IH. Qed.

Lemma mentions_suffix (before s : string) : mentions s (before ++ s).
Proof. exists before, "". now rewrite append_nil_r. Qed.



End Text.

(** ** The runs the claims consider *)

Section Runs.

Variables (w : World) (warehouse_path table_name : string).

(** Lines 32 to 34. *)
Lemma run_missing_path :
  os_path_exists w warehouse_path = false ->
  validate_iceberg_table w warehouse_path table_name =
    ([ Called (call_exists warehouse_path);
       Report (warehouse_missing warehouse_path) ], Returned false).
Proof.
  intros H. rewrite validate_finish. unfold validate_body. now py_run.
Qed.

(** Lines 46 and 118 to 121. *)
Lemma run_no_such_table (catalog : Catalog) (msg : string) :
  os_path_exists w warehouse_path = true ->
  load_catalog w warehouse_path = Ok catalog ->
  load_table catalog table_name = Raise (NoSuchTableError msg) ->
  validate_iceberg_table w warehouse_path table_name =
    ([ Called (call_exists warehouse_path);
       Called (call_load_catalog warehouse_path);
       Called (call_load_table table_name);
       Report (table_not_found cat_metadata table_name);
       Report (verify_table_exists cat_metadata warehouse_path) ],
     Returned false).
Proof.
  intros H1 H2 H3. rewrite validate_finish. unfold validate_body.
  py_run. unfold load_and_describe. now py_run.
Qed.

Variables (table : Table) (sch : Schema).
Hypothesis L : loads w warehouse_path table_name table sch.

(** Lines 32 to 68: the run as far as the end of the loop over the
    fields. *)
Lemma run_to_schema :
  exists loc,
    location table = Ok loc /\
    validate_iceberg_table w warehouse_path table_name =
      finish warehouse_path table_name
        (prepend (metadata_events warehouse_path table_name loc table
                  ++ schema_events sch)
           ((if has_bad_field sch then
               say ERROR (nl ++ "❌ Field ID issues detected - schema evolution may not work correctly") ;;
               ret false
             else
               validate_snapshots table ;;
               validate_current_snapshot table ;;
               additional_metadata table table_name) cat_schema)).
Proof.
  destruct L as [H1 (catalog & H2 & H3) (loc & H4) H5].
  exists loc. split; [assumption|].
  rewrite validate_finish. unfold validate_body, metadata_events. py_run.
  rewrite (bind_run _ _ _ _ _ _ (load_and_describe_run _ _ _ _ H3 H4)).
  rewrite (bind_run _ _ _ _ _ _ (validate_schema_run _ _ _ H5)).
  now py_run.
Qed.

(** Lines 32 to 72, when some field identifier is not positive. *)
Lemma run_bad_field :
  has_bad_field sch = true ->
  exists loc,
    location table = Ok loc /\
    validate_iceberg_table w warehouse_path table_name =
      ((metadata_events warehouse_path table_name loc table
        ++ schema_events sch ++ [Report field_id_issues_detected])%list,
       Returned false).
Proof.
  intros Hbad. destruct run_to_schema as (loc & Hloc & ->).
  exists loc. split; [assumption|]. rewrite Hbad. py_run.
  cbn [finish]. now rewrite <- !app_assoc.
Qed.

(** Lines 32 to 86, when every field identifier is positive and the
    snapshots can be listed: the run as far as the question for the
    current snapshot. *)
Lemma run_to_current_snapshot (snaps : list Snapshot) :
  has_bad_field sch = false ->
  snapshots (metadata table) = Ok snaps ->
  exists loc,
    location table = Ok loc /\
    validate_iceberg_table w warehouse_path table_name =
      finish warehouse_path table_name
        (prepend (metadata_events warehouse_path table_name loc table
                  ++ schema_events sch ++ snapshots_events snaps)
           ((validate_current_snapshot table ;;
             additional_metadata table table_name) cat_snapshot)).
Proof.
  intros Hgood Hsnaps. destruct run_to_schema as (loc & Hloc & ->).
  exists loc. split; [assumption|]. rewrite Hgood.
  rewrite (bind_run _ _ _ _ _ _ (validate_snapshots_run _ _ _ Hsnaps)).
  py_run. now rewrite <- !app_assoc.
Qed.

(** Lines 86 to 130 when the metadata has no current snapshot: only the
    table properties are still read. *)
Lemma calls_without_current (c : Category) :
  calls (fst (finish warehouse_path table_name
                (additional_metadata table table_name c))) =
    [call_properties].
Proof.
  unfold additional_metadata. py_run.
  destruct (properties table) as [props|e]; py_run; cbn [finish].
  - reflexivity.
  - destruct e; reflexivity.
Qed.

Lemma run_without_current (snaps : list Snapshot) :
  has_bad_field sch = false ->
  snapshots (metadata table) = Ok snaps ->
  current_snapshot (metadata table) = Ok None ->
  exists loc rest,
    location table = Ok loc /\
    calls rest = [call_properties] /\
    trace_of w warehouse_path table_name =
      (metadata_events warehouse_path table_name loc table
       ++ schema_events sch ++ snapshots_events snaps
       ++ [Called call_current_snapshot; Report no_current_snapshot]
       ++ rest)%list.
Proof.
  intros Hgood Hsnaps Hcur.
  destruct (run_to_current_snapshot snaps Hgood Hsnaps) as (loc & Hloc & Hrun).
  exists loc. eexists. split; [assumption|]. split; cycle 1.
  - unfold trace_of. rewrite Hrun.
    rewrite (bind_run _ _ _ _ _ _ (no_current_snapshot_run _ Hcur)).
    rewrite prepend_prepend, finish_prepend. cbn [fst].
    rewrite <- !app_assoc. reflexivity.
  - apply calls_without_current.
Qed.

(** Lines 86 to 92 when the metadata has a current snapshot: the scan is
    asked for, whatever it answers. *)
Lemma run_with_current (snaps : list Snapshot) (cur : Snapshot) :
  has_bad_field sch = false ->
  snapshots (metadata table) = Ok snaps ->
  current_snapshot (metadata table) = Ok (Some cur) ->
  exists loc rest,
    location table = Ok loc /\
    trace_of w warehouse_path table_name =
      (metadata_events warehouse_path table_name loc table
       ++ schema_events sch ++ snapshots_events snaps
       ++ [ Called call_current_snapshot;
            info cat_snapshot (nl ++ "✓ Current snapshot: "
                               ++ str_int (snapshot_id cur));
            info cat_scan (nl ++ "✓ Scanning table data...");
            Called call_scan ]
       ++ rest)%list.
Proof.
  intros Hgood Hsnaps Hcur.
  destruct (run_to_current_snapshot snaps Hgood Hsnaps) as (loc & Hloc & Hrun).
  exists loc. unfold trace_of. rewrite Hrun.
  unfold validate_current_snapshot, scan_table. py_run.
  destruct (scan table) as [sc|e]; py_run.
  - rewrite finish_prepend. cbn [fst]. eexists. split; [assumption|].
    rewrite <- !app_assoc. cbn [app]. reflexivity.
  - cbn [finish].
    exists (if is_Exception e
            then handler_events cat_scan warehouse_path table_name e else []).
    split; [assumption|].
    destruct (is_Exception e); cbn [fst]; rewrite <- !app_assoc; cbn [app];
      now rewrite ?app_nil_r.
Qed.

(** Lines 32 to 116 when every collaborator answers and every field
    identifier is positive. *)
Lemma run_readable (snaps : list Snapshot) (current : option Snapshot)
  (df : DataFrame) (props : string) :
  has_bad_field sch = false ->
  snapshots (metadata table) = Ok snaps ->
  current_snapshot (metadata table) = Ok current ->
  (current <> None ->
   exists sc, scan table = Ok sc /\ to_pandas sc = Ok df) ->
  properties table = Ok props ->
  exists loc,
    location table = Ok loc /\
    validate_iceberg_table w warehouse_path table_name =
      ((metadata_events warehouse_path table_name loc table
        ++ schema_events sch ++ snapshots_events snaps
        ++ current_events current df
        ++ summary_events table_name props table)%list,
       Returned true).
Proof.
  intros Hgood Hsnaps Hcur Hscan Hprops.
  destruct (run_to_current_snapshot snaps Hgood Hsnaps) as (loc & Hloc & Hrun).
  exists loc. split; [assumption|]. rewrite Hrun.
  unfold validate_current_snapshot, current_events. py_run.
  destruct current as [cur|].
  - destruct Hscan as (sc & Hsc & Hdf); [discriminate|]. py_run.
    rewrite (bind_run _ _ _ _ _ _ (scan_table_run _ _ _ _ Hsc Hdf)).
    rewrite (additional_metadata_run _ _ _ _ Hprops). py_run.
    cbn [finish]. rewrite <- !app_assoc. reflexivity.
  - py_run. rewrite (additional_metadata_run _ _ _ _ Hprops). py_run.
    cbn [finish]. rewrite <- !app_assoc. reflexivity.
Qed.

End Runs.

(** ** The claims of the design document *)

Section Claims.

Variables (w : World) (warehouse_path table_name : string).

(** C3. When the warehouse path does not exist the run fails: the report
    is exactly one Finding, of severity ERROR, whose message ends with the
    missing path; the only collaborator asked is the filesystem, so the
    catalog is not loaded and no schema or snapshot check takes place. *)
Theorem missing_warehouse_path_fails :
  os_path_exists w warehouse_path = false ->
  passed w warehouse_path table_name = false /\
  outcome w warehouse_path table_name = Returned false /\
  report w warehouse_path table_name = [warehouse_missing warehouse_path] /\
  severity (warehouse_missing warehouse_path) = ERROR /\
  mentions warehouse_path (message (warehouse_missing warehouse_path)) /\
  calls (trace_of w warehouse_path table_name) = [call_exists warehouse_path].
Proof.
  intros H. unfold passed, outcome, report, trace_of.
  rewrite (run_missing_path _ _ _ H). cbn [fst snd].
  repeat split. unfold warehouse_missing. cbn [message].
  apply mentions_suffix.
Qed.

(** C4. When the warehouse path exists and the catalog has no table of
    that name, the run fails; the report has exactly one ERROR Finding, of
    category metadata, whose message ends with the table name; the only
    other line is the hint that follows it, so no Finding of category
    schema, snapshot or scan is emitted, and no collaborator is asked
    after the table lookup. *)
Theorem missing_table_fails (catalog : Catalog) (msg : string) :
  os_path_exists w warehouse_path = true ->
  load_catalog w warehouse_path = Ok catalog ->
  load_table catalog table_name = Raise (NoSuchTableError msg) ->
  outcome w warehouse_path table_name = Returned false /\
  errors (trace_of w warehouse_path table_name) =
    [table_not_found cat_metadata table_name] /\
  category (table_not_found cat_metadata table_name) = cat_metadata /\
  mentions table_name (message (table_not_found cat_metadata table_name)) /\
  report w warehouse_path table_name =
    [ table_not_found cat_metadata table_name;
      verify_table_exists cat_metadata warehouse_path ] /\
  (forall f, In f (report w warehouse_path table_name) ->
             category f = cat_metadata) /\
  calls (trace_of w warehouse_path table_name) =
    [ call_exists warehouse_path; call_load_catalog warehouse_path;
      call_load_table table_name ].
Proof.
  intros H1 H2 H3. unfold passed, outcome, report, trace_of.
  rewrite (run_no_such_table _ _ _ _ _ H1 H2 H3). cbn [fst snd].
  repeat split.
  - unfold table_not_found. cbn [message]. apply mentions_suffix.
  - intros f [<-|[<-|[]]]; reflexivity.
Qed.

Variables (table : Table) (sch : Schema).
Hypothesis L : loads w warehouse_path table_name table sch.

Lemma bad_field_found (f : Field) :
  In f (fields sch) -> field_id f <= 0 -> has_bad_field sch = true.
Proof.
  intros Hin Hid. apply existsb_exists. exists f. split; [assumption|].
  now apply Z.leb_le.
Qed.

(** C1. When the schema holds a field whose identifier is not positive,
    the run returns [False]; the report holds the WARNING printed for
    that field; the lines printed for that field are all in the report
    and none of them is an ERROR; the one ERROR Finding of the report is
    the schema-level line printed after the loop, which names no field. *)
Theorem nonpositive_field_id_fails (f : Field) :
  In f (fields sch) ->
  field_id f <= 0 ->
  outcome w warehouse_path table_name = Returned false /\
  In (invalid_field_id f) (report w warehouse_path table_name) /\
  severity (invalid_field_id f) = WARNING /\
  (forall g, In g (field_findings f) ->
             In g (report w warehouse_path table_name) /\
             severity g <> ERROR) /\
  errors (trace_of w warehouse_path table_name) = [field_id_issues_detected].
Proof.
  intros Hin Hid. pose proof (bad_field_found f Hin Hid) as Hbad.
  destruct (run_bad_field _ _ _ _ _ L Hbad) as (loc & _ & Hrun).
  unfold passed, outcome, report, trace_of. rewrite Hrun. cbn [fst snd].
  assert (Hfield : forall g, In g (field_findings f) ->
            In g (findings (metadata_events warehouse_path table_name loc table
                            ++ schema_events sch
                            ++ [Report field_id_issues_detected]))).
  { intros g Hg. rewrite !findings_app, !in_app_iff. right; left.
    unfold schema_events. rewrite findings_app, in_app_iff. right.
    unfold field_events. rewrite findings_reports, in_flat_map. eauto. }
  assert (Hf : field_findings f = [field_info f; invalid_field_id f]).
  { unfold field_findings. now rewrite (proj2 (Z.leb_le _ _) Hid). }
  repeat split.
  - apply Hfield. rewrite Hf. cbn. auto.
  - now apply Hfield.
  - rewrite Hf in H. destruct H as [<-|[<-|[]]]; discriminate.
  - pose proof (verdict_agrees w warehouse_path table_name) as Hv.
    rewrite Hrun in Hv. destruct Hv as (e & He). rewrite He.
    assert (Hin' : In field_id_issues_detected [e]).
    { rewrite <- He. rewrite !errors_app, !in_app_iff. right; right.
      cbn. auto. }
    destruct Hin' as [->|[]]. reflexivity.
Qed.

(** C2, as the code has it.  A field identifier that is not positive is
    terminal: once the schema is listed the run records the ERROR line
    "Field ID issues detected" and returns [False]; the collaborators
    asked are those of the metadata and schema stages, so neither the
    snapshots nor the current snapshot are read and no scan is started,
    and every Finding is of category metadata or schema. *)
Theorem field_id_issue_is_terminal :
  (exists f, In f (fields sch) /\ field_id f <= 0) ->
  outcome w warehouse_path table_name = Returned false /\
  calls (trace_of w warehouse_path table_name) =
    [ call_exists warehouse_path; call_load_catalog warehouse_path;
      call_load_table table_name; call_location; call_schema ] /\
  (forall g, In g (report w warehouse_path table_name) ->
             category g = cat_metadata \/ category g = cat_schema) /\
  (exists before, report w warehouse_path table_name =
                  (before ++ [field_id_issues_detected])%list).
Proof.
  intros (f & Hin & Hid). pose proof (bad_field_found f Hin Hid) as Hbad.
  destruct (run_bad_field _ _ _ _ _ L Hbad) as (loc & _ & Hrun).
  unfold outcome, report, trace_of. rewrite Hrun. cbn [fst snd].
  repeat split.
  - rewrite !calls_app, calls_metadata_events, calls_schema_events.
    reflexivity.
  - intros g. rewrite !findings_app, !in_app_iff. intros [H|[H|H]].
    + left. unfold metadata_events in H. cbn [findings] in H.
      now apply category_describe_events in H.
    + right. now apply category_schema_events in H.
    + right. destruct H as [<-|[]]. reflexivity.
  - eexists. rewrite app_assoc, findings_app. reflexivity.
Qed.

Lemma good_fields :
  (forall f, In f (fields sch) -> 0 < field_id f) -> has_bad_field sch = false.
Proof.
  intros Hpos. unfold has_bad_field.
  destruct (existsb (fun f => field_id f <=? 0) (fields sch)) eqn:E;
    [|reflexivity].
  apply existsb_exists in E. destruct E as (f & Hin & Hid).
  apply Z.leb_le in Hid. specialize (Hpos f Hin). lia.
Qed.

Lemma no_error_finding (tr : list Event) :
  errors tr = [] -> forall g, In g (findings tr) -> severity g <> ERROR.
Proof.
  unfold errors. intros Hnone g Hin Hsev.
  assert (Hg : In g (filter is_error (findings tr))).
  { apply filter_In. split; [assumption|]. unfold is_error. now rewrite Hsev. }
  rewrite Hnone in Hg. destruct Hg.
Qed.

(** C5. A version 2 table whose field identifiers are all positive, with
    at least one snapshot, whose metadata can be read and whose scan,
    when there is a current snapshot, decodes: the run returns [True] and
    no Finding of the report is an ERROR. *)
Theorem valid_table_passes (snaps : list Snapshot) (current : option Snapshot)
  (df : DataFrame) (props : string) :
  format_version (metadata table) = 2 ->
  (forall f, In f (fields sch) -> 0 < field_id f) ->
  snapshots (metadata table) = Ok snaps ->
  snaps <> [] ->
  current_snapshot (metadata table) = Ok current ->
  (current <> None ->
   exists sc, scan table = Ok sc /\ to_pandas sc = Ok df) ->
  properties table = Ok props ->
  passed w warehouse_path table_name = true /\
  errors (trace_of w warehouse_path table_name) = [] /\
  (forall g, In g (report w warehouse_path table_name) ->
             severity g <> ERROR).
Proof.
  intros _ Hpos Hsnaps _ Hcur Hscan Hprops.
  destruct (run_readable _ _ _ _ _ L snaps current df props
              (good_fields Hpos) Hsnaps Hcur Hscan Hprops)
    as (loc & _ & Hrun).
  pose proof (verdict_agrees w warehouse_path table_name) as Hv.
  unfold passed, outcome, report, trace_of. rewrite Hrun in Hv |- *.
  cbn [fst snd]. repeat split; [assumption|].
  now apply no_error_finding.
Qed.

(** C6. A table without snapshots, the rest of whose metadata is sound
    (the fields have positive identifiers, the current snapshot is a
    pointer into the empty sequence, the properties can be read): the
    WARNING "No snapshots found" is recorded, neither the scan nor its
    decoding is asked for, and the run returns [True]. *)
Theorem empty_table_warns_and_passes (current : option Snapshot)
  (props : string) :
  (forall f, In f (fields sch) -> 0 < field_id f) ->
  snapshots (metadata table) = Ok [] ->
  current_snapshot (metadata table) = Ok current ->
  current_in_sequence [] current ->
  properties table = Ok props ->
  In no_snapshots_found (report w warehouse_path table_name) /\
  severity no_snapshots_found = WARNING /\
  ~ In call_scan (calls (trace_of w warehouse_path table_name)) /\
  ~ In call_to_pandas (calls (trace_of w warehouse_path table_name)) /\
  passed w warehouse_path table_name = true.
Proof.
  intros Hpos Hsnaps Hcur Hptr Hprops.
  assert (Hnone : current = None).
  { destruct current as [cur|]; [|reflexivity]. destruct (Hptr cur eq_refl). }
  subst current.
  destruct (run_readable _ _ _ _ _ L [] None
              {| df_len := 0; df_columns := ""; df_head := "";
                 df_dtypes := [] |} props
              (good_fields Hpos) Hsnaps Hcur) as (loc & _ & Hrun);
    [congruence | assumption |].
  unfold passed, outcome, report, trace_of. rewrite Hrun. cbn [fst snd].
  rewrite !calls_app, !findings_app, calls_metadata_events,
    calls_schema_events.
  repeat split.
  - rewrite !in_app_iff. right; right; left. cbn. auto.
  - cbn. intuition discriminate.
  - cbn. intuition discriminate.
Qed.

(** C10. Once the schema has passed and the snapshots are listed, the
    scan is decided by the current snapshot alone: whatever the snapshot
    list holds, the scan is asked for exactly when the metadata reports
    a current snapshot, and when it reports none the WARNING "No current
    snapshot" is recorded instead. *)
Theorem scan_follows_current_snapshot (snaps : list Snapshot)
  (current : option Snapshot) :
  (forall f, In f (fields sch) -> 0 < field_id f) ->
  snapshots (metadata table) = Ok snaps ->
  current_snapshot (metadata table) = Ok current ->
  (In call_scan (calls (trace_of w warehouse_path table_name)) <->
   current <> None) /\
  (current = None ->
   In no_current_snapshot (report w warehouse_path table_name) /\
   severity no_current_snapshot = WARNING).
Proof.
  intros Hpos Hsnaps Hcur. pose proof (good_fields Hpos) as Hgood.
  destruct current as [cur|].
  - destruct (run_with_current _ _ _ _ _ L snaps cur Hgood Hsnaps Hcur)
      as (loc & rest & _ & ->).
    split; [|discriminate]. split; [discriminate|]. intros _.
    rewrite !calls_app, !in_app_iff. right; right; right; left.
    cbn. auto.
  - destruct (run_without_current _ _ _ _ _ L snaps Hgood Hsnaps Hcur)
      as (loc & rest & _ & Hrest & Htrace).
    unfold report. rewrite Htrace. split.
    + split; [|congruence]. intros Hin. exfalso. revert Hin.
      rewrite !calls_app, calls_metadata_events, calls_schema_events,
        calls_snapshots_events, Hrest.
      cbn. intuition discriminate.
    + intros _. split; [|reflexivity].
      rewrite !findings_app, !in_app_iff. right; right; right; left.
      cbn. auto.
Qed.

End Claims.

Section Boundary.

Variables (w : World) (warehouse_path table_name : string).

Lemma handler_error (c : Category) (e : exn) :
  is_Exception e = true ->
  exists err rest,
    handler_events c warehouse_path table_name e = Report err :: rest /\
    errors (handler_events c warehouse_path table_name e) = [err] /\
    severity err = ERROR /\ category err = c /\
    match e with
    | NoSuchTableError _ => message err = "❌ Table not found: " ++ table_name
    | _ => mentions (str_exn e) (message err)
    end.
Proof.
  destruct e as [m|m|m|]; intros He; try discriminate; cbn [handler_events];
    do 2 eexists; (split; [reflexivity|]); repeat split;
    cbn [message]; apply mentions_suffix.
Qed.

End Boundary.

(** ** The claims on the warehouse of the design document *)

Ltac example_loads :=
  constructor;
  [ reflexivity
  | exists Example.catalog; split; reflexivity
  | eexists; reflexivity
  | reflexivity ].

Lemma missing_warehouse_path_fails_witness :
  report Example.wh "/tmp/lost" "orders" = [warehouse_missing "/tmp/lost"] /\
  calls (trace_of Example.wh "/tmp/lost" "orders") = [call_exists "/tmp/lost"].
Proof.
  destruct (missing_warehouse_path_fails Example.wh "/tmp/lost" "orders")
    as (_ & _ & Hreport & _ & _ & Hcalls).
  - reflexivity.
  - split; assumption.
Defined.

Lemma missing_table_fails_witness :
  errors (trace_of Example.wh "/tmp/wh" "invoices") =
    [table_not_found cat_metadata "invoices"] /\
  outcome Example.wh "/tmp/wh" "invoices" = Returned false.
Proof.
  destruct (missing_table_fails Example.wh "/tmp/wh" "invoices"
              Example.catalog "Table does not exist: invoices")
    as (Hpassed & Herrors & _).
  - reflexivity.
  - reflexivity.
  - reflexivity.
  - split; assumption.
Defined.

Lemma nonpositive_field_id_fails_witness :
  outcome Example.wh "/tmp/wh" "legacy" = Returned false /\
  In (invalid_field_id Example.legacy_field)
     (report Example.wh "/tmp/wh" "legacy") /\
  errors (trace_of Example.wh "/tmp/wh" "legacy") = [field_id_issues_detected].
Proof.
  destruct (nonpositive_field_id_fails Example.wh "/tmp/wh" "legacy"
              Example.legacy Example.legacy_schema)
    with (f := Example.legacy_field)
    as (Hpassed & Hin & _ & _ & Herrors).
  - example_loads.
  - cbn. auto.
  - cbn. lia.
  - repeat split; assumption.
Defined.

(** C2, as the design document has it, fails on the table [legacy]: its
    metadata loads, it has a snapshot and a current snapshot, its schema
    has a field with identifier 0, and the run asks neither for the
    snapshots nor for a scan and files no Finding under snapshot or
    scan. *)
Lemma field_id_issue_skips_snapshots :
  loads Example.wh "/tmp/wh" "legacy" Example.legacy Example.legacy_schema /\
  In Example.legacy_field (fields Example.legacy_schema) /\
  field_id Example.legacy_field <= 0 /\
  snapshots (metadata Example.legacy) = Ok [Example.first_snapshot] /\
  current_snapshot (metadata Example.legacy) = Ok (Some Example.first_snapshot) /\
  ~ In call_snapshots (calls (trace_of Example.wh "/tmp/wh" "legacy")) /\
  ~ In call_scan (calls (trace_of Example.wh "/tmp/wh" "legacy")) /\
  (forall g, In g (report Example.wh "/tmp/wh" "legacy") ->
             category g <> cat_snapshot /\ category g <> cat_scan).
Proof.
  split; [example_loads|].
  split; [cbn; auto|].
  split; [cbn; lia|].
  split; [reflexivity|].
  split; [reflexivity|].
  split; [|split].
  - vm_compute. intuition discriminate.
  - vm_compute. intuition discriminate.
  - intros g Hg. vm_compute in Hg.
    repeat (destruct Hg as [<-|Hg]; [split; discriminate|]).
    destruct Hg.
Qed.

Lemma field_id_issue_is_terminal_witness :
  outcome Example.wh "/tmp/wh" "legacy" = Returned false /\
  calls (trace_of Example.wh "/tmp/wh" "legacy") =
    [ call_exists "/tmp/wh"; call_load_catalog "/tmp/wh";
      call_load_table "legacy"; call_location; call_schema ].
Proof.
  destruct (field_id_issue_is_terminal Example.wh "/tmp/wh" "legacy"
              Example.legacy Example.legacy_schema)
    as (Hout & Hcalls & _).
  - example_loads.
  - exists Example.legacy_field. split; [cbn; auto | cbn; lia].
  - split; assumption.
Defined.

Lemma valid_table_passes_witness :
  passed Example.wh "/tmp/wh" "orders" = true /\
  errors (trace_of Example.wh "/tmp/wh" "orders") = [].
Proof.
  destruct (valid_table_passes Example.wh "/tmp/wh" "orders"
              Example.orders Example.orders_schema)
    with (snaps := [Example.first_snapshot])
         (current := Some Example.first_snapshot)
         (df := Example.three_rows) (props := "{}")
    as (Hpassed & Herrors & _).
  - example_loads.
  - reflexivity.
  - cbn. intros f [<-|[<-|[]]]; cbn; lia.
  - reflexivity.
  - discriminate.
  - reflexivity.
  - intros _. eexists. split; reflexivity.
  - reflexivity.
  - split; assumption.
Defined.

Lemma empty_table_warns_and_passes_witness :
  In no_snapshots_found (report Example.wh "/tmp/wh" "empty") /\
  ~ In call_scan (calls (trace_of Example.wh "/tmp/wh" "empty")) /\
  passed Example.wh "/tmp/wh" "empty" = true.
Proof.
  destruct (empty_table_warns_and_passes Example.wh "/tmp/wh" "empty"
              Example.empty Example.orders_schema)
    with (current := @None Snapshot) (props := "{}")
    as (Hin & _ & Hscan & _ & Hpassed).
  - example_loads.
  - cbn. intros f [<-|[<-|[]]]; cbn; lia.
  - reflexivity.
  - reflexivity.
  - intros cur Hcur. discriminate.
  - reflexivity.
  - repeat split; assumption.
Defined.

Lemma scan_follows_current_snapshot_witness :
  In call_scan (calls (trace_of Example.wh "/tmp/wh" "dangling")) /\
  ~ In call_scan (calls (trace_of Example.wh "/tmp/wh" "detached")).
Proof.
  split.
  - destruct (scan_follows_current_snapshot Example.wh "/tmp/wh" "dangling"
                Example.dangling Example.orders_schema)
      with (snaps := @nil Snapshot) (current := Some Example.first_snapshot)
      as (Hscan & _).
    + example_loads.
    + cbn. intros f [<-|[<-|[]]]; cbn; lia.
    + reflexivity.
    + reflexivity.
    + apply Hscan. discriminate.
  - destruct (scan_follows_current_snapshot Example.wh "/tmp/wh" "detached"
                Example.detached Example.orders_schema)
      with (snaps := [Example.first_snapshot]) (current := @None Snapshot)
      as (Hscan & _).
    + example_loads.
    + cbn. intros f [<-|[<-|[]]]; cbn; lia.
    + reflexivity.
    + reflexivity.
    + intros Hin. apply Hscan in Hin. now apply Hin.
Defined.


(** ** The order in which the collaborators are asked *)

Section Asking.

Lemma prefix_of_refl {A} (l : list A) : prefix_of l l.
Proof. exists []. now rewrite app_nil_r. Qed.

Lemma prefix_of_nil {A} (L : list A) : prefix_of [] L.
Proof. now exists L. Qed.

Lemma prefix_of_app_r {A} (l L1 L2 : list A) :
  prefix_of l L1 -> prefix_of l (L1 ++ L2).
Proof. intros (rest & ->). exists (rest ++ L2)%list. now rewrite app_assoc. Qed.

Lemma prefix_of_app_l {A} (l1 l2 L2 : list A) :
  prefix_of l2 L2 -> prefix_of (l1 ++ l2) (l1 ++ L2).
Proof. intros (rest & ->). exists rest. now rewrite app_assoc. Qed.

Lemma prefix_of_NoDup {A} (l L : list A) : prefix_of l L -> NoDup L -> NoDup l.
Proof. intros (rest & ->) H. now apply NoDup_app_remove_r in H. Qed.

Lemma asks_ret {A} (a : A) : asks [] (ret a).
Proof. intros c. reflexivity. Qed.

Lemma asks_pass : asks [] pass.
Proof. intros c. reflexivity. Qed.

Lemma asks_enter (stage : Category) : asks [] (enter stage).
Proof. intros c. reflexivity. Qed.

Lemma asks_say (sev : Severity) (text : string) : asks [] (say sev text).
Proof. intros c. reflexivity. Qed.

Lemma asks_call {A} (what : Call) (answer : result A) :
  asks [what] (call what answer).
Proof.
  intros c. unfold call. destruct answer; [reflexivity|].
  apply prefix_of_refl.
Qed.

Lemma asks_bind {A B} (L1 L2 : list Call) (m : M A) (k : A -> M B) :
  asks L1 m -> (forall a, asks L2 (k a)) -> asks (L1 ++ L2) (bind m k).
Proof.
  intros Hm Hk c. unfold bind. specialize (Hm c).
  destruct (m c) as [[es1 c1] [a|e]]; [|now apply prefix_of_app_r].
  specialize (Hk a c1). destruct (k a c1) as [[es2 c2] [b|e]];
    cbn [prepend]; rewrite calls_app, Hm.
  - now rewrite Hk.
  - now apply prefix_of_app_l.
Qed.

Lemma asks_then {A B} (L : list Call) (m : M A) (k : A -> M B) :
  asks [] m -> (forall a, asks L (k a)) -> asks L (bind m k).
Proof. apply (asks_bind [] L). Qed.

Lemma asks_call_then {A B} (L : list Call) (what : Call) (answer : result A)
  (k : A -> M B) :
  (forall a, asks L (k a)) -> asks (what :: L) (bind (call what answer) k).
Proof. apply (asks_bind [what] L), asks_call. Qed.

Lemma asks_if {A} (L : list Call) (b : bool) (m1 m2 : M A) :
  asks L m1 -> asks L m2 -> asks L (if b then m1 else m2).
Proof. now destruct b. Qed.

Lemma asks_for_each {A B} (xs : list B) (body : B -> A -> M A) :
  (forall x acc, asks [] (body x acc)) ->
  forall acc, asks [] (for_each xs acc body).
Proof.
  intros Hbody. induction xs as [|x rest IH]; intros acc; cbn [for_each].
  - apply asks_ret.
  - apply asks_then; [apply Hbody | intros; apply IH].
Qed.

End Asking.

Create HintDb asks.
#[local] Hint Resolve asks_ret asks_pass asks_enter asks_say asks_call asks_if
  : asks.

Ltac asks_steps :=
  repeat first [ apply asks_call_then; intros
               | apply asks_then; [solve [auto with asks] | intros]
               | apply asks_for_each; intros
               | apply asks_if
               | match goal with
                 | |- asks _ (match ?x with _ => _ end) => destruct x
                 end
               | solve [auto with asks] ].

Section Pipeline.

Lemma asks_load_and_describe (catalog : Catalog) (table_name : string) :
  asks [call_load_table table_name; call_location]
       (load_and_describe catalog table_name).
Proof. unfold load_and_describe. asks_steps. Qed.

Lemma asks_validate_schema (table : Table) :
  asks [call_schema] (validate_schema table).
Proof. unfold validate_schema, field_loop. asks_steps. Qed.

Lemma asks_validate_snapshots (table : Table) :
  asks [call_snapshots] (validate_snapshots table).
Proof. unfold validate_snapshots, snapshot_loop. asks_steps. Qed.

Lemma asks_scan_table (table : Table) :
  asks [call_scan; call_to_pandas] (scan_table table).
Proof. unfold scan_table, dtype_loop. asks_steps. Qed.

Lemma asks_additional_metadata (table : Table) (table_name : string) :
  asks [call_properties] (additional_metadata table table_name).
Proof. unfold additional_metadata. asks_steps. Qed.

Lemma asks_with_call {A} (what : Call) (answer : result A) :
  asks_with [what] (fun a => answer = Ok a) (call what answer).
Proof.
  intros c. unfold call. destruct answer; [now split|].
  apply prefix_of_refl.
Qed.

Lemma asks_with_any {A} (L : list Call) (m : M A) :
  asks L m -> asks_with L (fun _ => True) m.
Proof.
  intros Hm c. specialize (Hm c). destruct (m c) as [[es c1] [a|e]]; auto.
Qed.

Lemma asks_with_bind {A B} (L1 L2 : list Call) (Q1 : A -> Prop)
  (Q2 : B -> Prop) (m : M A) (k : A -> M B) :
  asks_with L1 Q1 m -> (forall a, Q1 a -> asks_with L2 Q2 (k a)) ->
  asks_with (L1 ++ L2) Q2 (bind m k).
Proof.
  intros Hm Hk c. unfold bind. specialize (Hm c).
  destruct (m c) as [[es1 c1] [a|e]]; [|now apply prefix_of_app_r].
  destruct Hm as [Hm Ha]. specialize (Hk a Ha c1).
  destruct (k a c1) as [[es2 c2] [b|e]]; cbn [prepend]; rewrite calls_app, Hm.
  - destruct Hk as [-> Hb]. now split.
  - now apply prefix_of_app_l.
Qed.

Lemma within_bind {A} (L1 L2 : list Call) (Q : A -> Prop) (m : M A)
  (k : A -> M bool) :
  asks_with L1 Q m -> (forall a, Q a -> asks_within L2 (k a)) ->
  asks_within (L1 ++ L2) (bind m k).
Proof.
  intros Hm Hk c. unfold bind. specialize (Hm c).
  destruct (m c) as [[es1 c1] [a|e]]; [|now apply prefix_of_app_r].
  destruct Hm as [Hm Ha]. specialize (Hk a Ha c1).
  destruct (k a c1) as [[es2 c2] [[|]|e]]; cbn [prepend];
    rewrite calls_app, Hm; try rewrite Hk; auto using prefix_of_app_l.
Qed.

Lemma within_failure (L : list Call) (text : string) :
  asks_within L (say ERROR text ;; ret false).
Proof. intros c. apply prefix_of_nil. Qed.

Lemma within_asks (L : list Call) (m : M bool) : asks L m -> asks_within L m.
Proof.
  intros Hm c. specialize (Hm c). destruct (m c) as [[es c1] [[|]|e]];
    try rewrite Hm; auto using prefix_of_refl.
Qed.

(** [load_and_describe] returns the table that [load_table] gave. *)
Lemma asks_with_load_and_describe (catalog : Catalog) (table_name : string) :
  asks_with [call_load_table table_name; call_location]
            (fun table => load_table catalog table_name = Ok table)
            (load_and_describe catalog table_name).
Proof.
  unfold load_and_describe.
  apply (asks_with_bind [call_load_table table_name] [call_location]
                        (fun table => load_table catalog table_name = Ok table));
    [apply asks_with_call|].
  intros table Htable.
  apply (asks_with_bind [] [call_location] (fun _ => True));
    [apply asks_with_any, asks_say|]. intros _ _.
  apply (asks_with_bind [call_location] [] (fun _ => True));
    [apply asks_with_any, asks_call|]. intros loc _.
  repeat (apply (asks_with_bind [] [] (fun _ => True));
          [apply asks_with_any; auto with asks | intros _ _]).
  intros c. now split.
Qed.

(** Lines 86 to 116: the scan and its decoding are asked for when, and
    only when, [current_snapshot()] returned a snapshot. *)
Lemma within_current_snapshot (table : Table) (table_name : string) :
  asks_within ([call_current_snapshot]
               ++ (if table_has_current table
                   then [call_scan; call_to_pandas] else [])
               ++ [call_properties])
              (validate_current_snapshot table ;;
               additional_metadata table table_name).
Proof.
  intros c. unfold validate_current_snapshot. rewrite bind_assoc. revert c.
  apply (within_bind [call_current_snapshot] _
           (fun cur => current_snapshot (metadata table) = Ok cur));
    [apply asks_with_call|].
  intros cur Hcur. unfold table_has_current. rewrite Hcur.
  destruct cur as [cur|].
  - apply (within_bind [call_scan; call_to_pandas] [call_properties]
                       (fun _ => True)).
    + apply asks_with_any, asks_then;
        [apply asks_say | intros; apply asks_scan_table].
    + intros _ _. apply within_asks, asks_additional_metadata.
  - apply (within_bind [] [call_properties] (fun _ => True)).
    + apply asks_with_any, asks_say.
    + intros _ _. apply within_asks, asks_additional_metadata.
Qed.

Lemma within_validate_body (w : World) (warehouse_path table_name : string) :
  asks_within (pipeline warehouse_path table_name
                        (has_current w warehouse_path table_name))
              (validate_body w warehouse_path table_name).
Proof.
  unfold validate_body, pipeline, has_current. cbn [app].
  apply (within_bind [call_exists warehouse_path] _ (fun _ => True));
    [apply asks_with_any, asks_call|].
  intros found _. destruct (negb found); [apply within_failure|].
  apply (within_bind [call_load_catalog warehouse_path] _
           (fun catalog => load_catalog w warehouse_path = Ok catalog));
    [apply asks_with_call|].
  intros catalog ->.
  apply (within_bind [call_load_table table_name; call_location] _
           (fun table => load_table catalog table_name = Ok table));
    [apply asks_with_load_and_describe|].
  intros table ->.
  apply (within_bind [call_schema] _ (fun _ => True));
    [apply asks_with_any, asks_validate_schema|].
  intros issues _. destruct issues; [apply within_failure|].
  apply (within_bind [call_snapshots] _ (fun _ => True));
    [apply asks_with_any, asks_validate_snapshots|].
  intros _ _. apply within_current_snapshot.
Qed.

Lemma calls_handler_events (c : Category) (warehouse_path table_name : string)
  (e : exn) :
  calls (handler_events c warehouse_path table_name e) = [].
Proof. now destruct e. Qed.

Lemma pipeline_NoDup (warehouse_path table_name : string) (scanned : bool) :
  NoDup (pipeline warehouse_path table_name scanned).
Proof.
  destruct scanned; unfold pipeline; cbn [app];
    repeat (constructor; [cbn; intuition discriminate|]); constructor.
Qed.

(** The calls of a run against the pipeline. *)
Lemma run_against_pipeline (w : World) (warehouse_path table_name : string) :
  let '(tr, o) := validate_iceberg_table w warehouse_path table_name in
  prefix_of (calls tr)
            (pipeline warehouse_path table_name
                      (has_current w warehouse_path table_name)) /\
  (o = Returned true ->
   calls tr = pipeline warehouse_path table_name
                       (has_current w warehouse_path table_name)).
Proof.
  rewrite validate_finish.
  pose proof (within_validate_body w warehouse_path table_name cat_metadata)
    as H.
  destruct (validate_body w warehouse_path table_name cat_metadata)
    as [[tr c] [[|]|e]]; cbn [finish].
  - rewrite H. split; [apply prefix_of_refl | reflexivity].
  - split; [assumption | discriminate].
  - destruct (is_Exception e).
    + rewrite calls_app, calls_handler_events, app_nil_r.
      split; [assumption | discriminate].
    + split; [assumption | discriminate].
Qed.

End Pipeline.

(** ** Where the ERROR finding stands *)

Section FailsLast.

Lemma fails_after_quiet {A} (m : M A) (k : A -> M bool) :
  quiet m -> (forall a c, fails_last (k a c)) ->
  forall c, fails_last (bind m k c).
Proof.
  intros Hm Hk c. unfold bind. specialize (Hm c).
  destruct (m c) as [[es1 c1] [a|e]]; cbn [fst fails_last] in Hm |- *;
    [|assumption].
  specialize (Hk a c1). destruct (k a c1) as [[es2 c2] [[|]|e]];
    cbn [prepend fails_last] in Hk |- *.
  - now rewrite errors_app, Hm, Hk.
  - destruct Hk as (before & err & -> & Hbefore & Herr).
    exists (es1 ++ before)%list, err. rewrite app_assoc.
    repeat split; [|assumption]. now rewrite errors_app, Hm, Hbefore.
  - now rewrite errors_app, Hm, Hk.
Qed.

Lemma fails_failure (text : string) (c : Category) :
  fails_last ((say ERROR text ;; ret false) c).
Proof.
  exists [], {| severity := ERROR; category := c; message := text |}.
  repeat split.
Qed.

Lemma fails_additional_metadata (table : Table) (table_name : string)
  (c : Category) :
  fails_last (additional_metadata table table_name c).
Proof.
  revert c. unfold additional_metadata.
  repeat (apply fails_after_quiet; [auto with quiet | intros ?]).
  intros c. reflexivity.
Qed.

Lemma fails_validate_body (w : World) (warehouse_path table_name : string)
  (c : Category) :
  fails_last (validate_body w warehouse_path table_name c).
Proof.
  revert c. unfold validate_body.
  apply fails_after_quiet; [auto with quiet | intros found].
  destruct (negb found); [apply fails_failure|].
  apply fails_after_quiet; [auto with quiet | intros catalog].
  apply fails_after_quiet; [apply quiet_load_and_describe | intros table].
  apply fails_after_quiet; [apply quiet_validate_schema | intros issues].
  destruct issues; [apply fails_failure|].
  apply fails_after_quiet; [apply quiet_validate_snapshots | intros _].
  apply fails_after_quiet; [apply quiet_validate_current_snapshot | intros _].
  apply fails_additional_metadata.
Qed.

(** What a handler leaves after its ERROR line: one hint, or the
    traceback. *)
Lemma handler_tail (c : Category) (warehouse_path table_name : string)
  (e : exn) :
  is_Exception e = true ->
  exists err after,
    handler_events c warehouse_path table_name e = Report err :: after /\
    severity err = ERROR /\ errors after = [] /\ calls after = [] /\
    length after = 1%nat.
Proof.
  destruct e; intros He; try discriminate; cbn [handler_events];
    do 2 eexists; repeat split.
Qed.

End FailsLast.

(** ** The kinds of events of a run *)

Section Always.

Variable P : Event -> Prop.
Hypothesis P_report : forall f, P (Report f).
Hypothesis P_called : forall c, P (Called c).

Lemma always_ret {A} (a : A) : always P (ret a).
Proof. intros c. constructor. Qed.

Lemma always_pass : always P pass.
Proof. intros c. constructor. Qed.

Lemma always_enter (stage : Category) : always P (enter stage).
Proof. intros c. constructor. Qed.

Lemma always_say (sev : Severity) (text : string) : always P (say sev text).
Proof. intros c. repeat constructor. apply P_report. Qed.

Lemma always_call {A} (what : Call) (answer : result A) :
  always P (call what answer).
Proof. intros c. repeat constructor. apply P_called. Qed.

Lemma always_bind {A B} (m : M A) (k : A -> M B) :
  always P m -> (forall a, always P (k a)) -> always P (bind m k).
Proof.
  intros Hm Hk c. unfold bind. specialize (Hm c).
  destruct (m c) as [[es1 c1] [a|e]]; cbn [fst] in Hm |- *; [|assumption].
  specialize (Hk a c1). destruct (k a c1) as [[es2 c2] r2].
  cbn [prepend fst] in Hk |- *. apply Forall_app. now split.
Qed.

Lemma always_if {A} (b : bool) (m1 m2 : M A) :
  always P m1 -> always P m2 -> always P (if b then m1 else m2).
Proof. now destruct b. Qed.

Lemma always_for_each {A B} (xs : list B) (body : B -> A -> M A) :
  (forall x acc, always P (body x acc)) ->
  forall acc, always P (for_each xs acc body).
Proof.
  intros Hbody. induction xs as [|x rest IH]; intros acc; cbn [for_each].
  - apply always_ret.
  - apply always_bind; [apply Hbody | intros; apply IH].
Qed.

Ltac always_steps :=
  repeat first [ apply always_bind; [|intros]
               | apply always_for_each; intros
               | apply always_if
               | apply always_ret
               | apply always_pass
               | apply always_enter
               | apply always_say
               | apply always_call
               | match goal with
                 | |- always _ (match ?x with _ => _ end) => destruct x
                 end ].

(** The [try] body only prints lines of the report and asks the
    collaborators. *)
Lemma always_validate_body (w : World) (warehouse_path table_name : string) :
  always P (validate_body w warehouse_path table_name).
Proof.
  unfold validate_body, load_and_describe, validate_schema,
    validate_snapshots, validate_current_snapshot, additional_metadata.
  always_steps; unfold field_loop, snapshot_loop, scan_table; always_steps;
    unfold dtype_loop; always_steps.
Qed.

End Always.

Section Outputs.

Lemma stdout_app (a b : list Event) :
  stdout (a ++ b) = (stdout a ++ stdout b)%list.
Proof. induction a as [|[f|s|e|c] a IH]; cbn; now rewrite ?IH. Qed.

Lemma stdout_lines (lines : list string) : stdout (map Stdout lines) = lines.
Proof. induction lines as [|l lines IH]; cbn; now rewrite ?IH. Qed.

Lemma findings_lines (lines : list string) : findings (map Stdout lines) = [].
Proof. induction lines as [|l lines IH]; [reflexivity | exact IH]. Qed.

Lemma calls_lines (lines : list string) : calls (map Stdout lines) = [].
Proof. induction lines as [|l lines IH]; [reflexivity | exact IH]. Qed.

Lemma of_validation_no_stdout (tr : list Event) :
  Forall of_validation tr -> stdout tr = [].
Proof.
  induction 1 as [|ev tr Hev _ IH]; [reflexivity|].
  destruct ev; cbn in Hev |- *; try assumption; destruct Hev.
Qed.

Lemma of_validation_no_traceback (tr : list Event) (e : exn) :
  Forall of_validation tr -> ~ In (Traceback e) tr.
Proof.
  intros H Hin. rewrite Forall_forall in H. exact (H _ Hin).
Qed.

(** Nothing of a validation run goes to [main]'s own output. *)
Lemma stdout_validate (w : World) (warehouse_path table_name : string) :
  stdout (trace_of w warehouse_path table_name) = [].
Proof.
  unfold trace_of. rewrite validate_finish.
  pose proof (always_validate_body of_validation (fun _ => I) (fun _ => I)
                w warehouse_path table_name cat_metadata) as H.
  destruct (validate_body w warehouse_path table_name cat_metadata)
    as [[tr c] [b|e]]; cbn [fst finish] in H |- *.
  - now apply of_validation_no_stdout.
  - destruct (is_Exception e); cbn [fst].
    + rewrite stdout_app, (of_validation_no_stdout _ H). now destruct e.
    + now apply of_validation_no_stdout.
Qed.

End Outputs.

(** ** More runs *)

Section MoreRuns.

Variables (w : World) (warehouse_path table_name : string).
Variables (table : Table) (sch : Schema).
Hypothesis L : loads w warehouse_path table_name table sch.

Lemma fields_all_positive :
  has_bad_field sch = false -> forall f, In f (fields sch) -> 0 < field_id f.
Proof.
  intros Hgood f Hin. destruct (Z.leb_spec (field_id f) 0) as [Hle|Hlt];
    [|assumption].
  enough (has_bad_field sch = true) by congruence.
  apply existsb_exists. exists f. split; [assumption|]. now apply Z.leb_le.
Qed.

(** Lines 86 to 93 and 118 to 130 when [table.scan()] or
    [scan.to_pandas()] raises an exception the handlers catch. *)
Lemma run_scan_failure (snaps : list Snapshot) (cur : Snapshot) (e : exn) :
  has_bad_field sch = false ->
  snapshots (metadata table) = Ok snaps ->
  current_snapshot (metadata table) = Ok (Some cur) ->
  scan table = Raise e \/
  (exists sc, scan table = Ok sc /\ to_pandas sc = Raise e) ->
  is_Exception e = true ->
  exists loc asked,
    location table = Ok loc /\
    (asked = [call_scan] \/ asked = [call_scan; call_to_pandas]) /\
    validate_iceberg_table w warehouse_path table_name =
      ((metadata_events warehouse_path table_name loc table
        ++ schema_events sch ++ snapshots_events snaps
        ++ [ Called call_current_snapshot;
             info cat_snapshot (nl ++ "✓ Current snapshot: "
                                ++ str_int (snapshot_id cur));
             info cat_scan (nl ++ "✓ Scanning table data...") ]
        ++ map Called asked
        ++ handler_events cat_scan warehouse_path table_name e)%list,
       Returned false).
Proof.
  intros Hgood Hsnaps Hcur Hscan He.
  destruct (run_to_current_snapshot _ _ _ _ _ L snaps Hgood Hsnaps)
    as (loc & Hloc & Hrun).
  exists loc. rewrite Hrun. unfold validate_current_snapshot, scan_table.
  destruct Hscan as [Hscan|(sc & Hscan & Hdf)].
  - exists [call_scan]. split; [assumption|]. split; [now left|].
    py_run. cbn [finish]. rewrite He. cbn [map]. rewrite <- !app_assoc.
    reflexivity.
  - exists [call_scan; call_to_pandas]. split; [assumption|].
    split; [now right|].
    py_run. cbn [finish]. rewrite He. cbn [map]. rewrite <- !app_assoc.
    reflexivity.
Qed.

End MoreRuns.

Section Categories.

Lemma category_snapshots_events (snaps : list Snapshot) (f : Finding) :
  In f (findings (snapshots_events snaps)) -> category f = cat_snapshot.
Proof.
  unfold snapshots_events. destruct snaps as [|s rest].
  - cbn. intuition (subst; reflexivity).
  - cbn [findings info]. intros [<-|H]; [reflexivity|].
    unfold snapshot_events in H. rewrite findings_reports, in_flat_map in H.
    destruct H as (x & _ & H). cbn in H. intuition (subst; reflexivity).
Qed.

Lemma category_scan_events (df : DataFrame) (f : Finding) :
  In f (findings (scan_events df)) -> category f = cat_scan.
Proof.
  unfold scan_events. rewrite findings_app, in_app_iff. intros [H|H].
  - cbn in H. intuition (subst; reflexivity).
  - destruct (0 <? df_len df)%nat; [|destruct H].
    rewrite findings_app, in_app_iff in H. destruct H as [H|H].
    + cbn in H. intuition (subst; reflexivity).
    + unfold dtype_events in H. induction (df_dtypes df) as [|i items IH].
      * destruct H.
      * cbn in H. destruct H as [<-|H]; [reflexivity | now apply IH].
Qed.

Lemma category_current_events (current : option Snapshot) (df : DataFrame)
  (f : Finding) :
  In f (findings (current_events current df)) ->
  category f = cat_snapshot \/ category f = cat_scan.
Proof.
  unfold current_events. destruct current as [cur|].
  - cbn [findings info]. intros [<-|H]; [now left|].
    right. now apply category_scan_events in H.
  - cbn. intuition (subst; auto).
Qed.

Lemma errors_metadata_events (warehouse_path table_name loc : string)
  (table : Table) :
  errors (metadata_events warehouse_path table_name loc table) = [].
Proof.
  unfold metadata_events, describe_events, format_warning.
  now destruct (negb (format_version (metadata table) =? 2)).
Qed.

Lemma errors_field_events (fs : list Field) : errors (field_events fs) = [].
Proof.
  unfold errors, field_events. rewrite findings_reports.
  induction fs as [|f fs IH]; [reflexivity|].
  cbn [flat_map]. rewrite filter_app, IH, app_nil_r.
  unfold field_findings. now destruct (field_id f <=? 0).
Qed.

Lemma errors_schema_events (sch : Schema) : errors (schema_events sch) = [].
Proof.
  unfold schema_events. rewrite errors_app, errors_field_events. reflexivity.
Qed.

Lemma errors_snapshots_events (snaps : list Snapshot) :
  errors (snapshots_events snaps) = [].
Proof.
  unfold snapshots_events. destruct snaps as [|s rest]; [reflexivity|].
  rewrite errors_called, errors_info.
  unfold errors, snapshot_events. rewrite findings_reports.
  induction (s :: rest) as [|x xs IH]; [reflexivity|].
  cbn [flat_map]. now rewrite filter_app, IH.
Qed.

Lemma severity_summary_events (table_name props : string) (table : Table)
  (f : Finding) :
  In f (findings (summary_events table_name props table)) -> severity f = INFO.
Proof. cbn. intuition (subst; reflexivity). Qed.

End Categories.

(** ** Further properties of the script *)

Section Further.

Variables (w : World) (warehouse_path table_name : string).

(** X1. The ERROR finding ends the run.  A run that returns [False] has
    exactly one ERROR finding; no ERROR finding comes before it, no
    collaborator is asked after it, and at most one more event follows
    it (the hint of a handler, or the traceback).  A run that returns
    [True], or that an exception leaves, has no ERROR finding. *)
Theorem error_ends_the_run :
  match outcome w warehouse_path table_name with
  | Returned false =>
      exists before err after,
        trace_of w warehouse_path table_name
          = (before ++ Report err :: after)%list /\
        errors before = [] /\ severity err = ERROR /\
        errors after = [] /\ calls after = [] /\ (length after <= 1)%nat
  | Returned true | Propagated _ =>
      errors (trace_of w warehouse_path table_name) = []
  end.
Proof.
  unfold outcome, trace_of. rewrite validate_finish.
  pose proof (fails_validate_body w warehouse_path table_name cat_metadata)
    as H.
  destruct (validate_body w warehouse_path table_name cat_metadata)
    as [[tr c] [[|]|e]]; cbn [finish fst snd fails_last] in H |- *.
  - assumption.
  - destruct H as (before & err & -> & Hbefore & Herr).
    exists before, err, []. repeat split; auto.
  - destruct (is_Exception e) eqn:He; cbn [fst snd]; [|assumption].
    destruct (handler_tail c warehouse_path table_name e He)
      as (err & after & -> & Herr & Hafter & Hcalls & Hlen).
    exists tr, err, after. rewrite Hlen. repeat split; auto.
Qed.

(** X2. The collaborators are asked in the order of the pipeline (path,
    catalog, table, location, schema, snapshots, current snapshot, scan,
    decoding, properties), up to the point where the run stops; the scan
    and its decoding belong to the pipeline exactly when the table loads
    and [current_snapshot()] returns a snapshot; and no collaborator is
    asked twice. *)
Theorem calls_follow_the_pipeline :
  NoDup (calls (trace_of w warehouse_path table_name)) /\
  prefix_of (calls (trace_of w warehouse_path table_name))
            (pipeline warehouse_path table_name
                      (has_current w warehouse_path table_name)).
Proof.
  pose proof (run_against_pipeline w warehouse_path table_name) as H.
  unfold trace_of.
  destruct (validate_iceberg_table w warehouse_path table_name) as [tr o].
  destruct H as (Hprefix & _). cbn [fst]. split; [|assumption].
  apply (prefix_of_NoDup _ _ Hprefix), pipeline_NoDup.
Qed.

(** X3. A run returns [True] only after every stage has run: the calls
    of a passing run are the whole pipeline, with the scan and its
    decoding when [current_snapshot()] returned a snapshot and without
    them when it returned none. *)
Theorem passing_run_asked_everything :
  passed w warehouse_path table_name = true ->
  calls (trace_of w warehouse_path table_name)
    = pipeline warehouse_path table_name
               (has_current w warehouse_path table_name).
Proof.
  pose proof (run_against_pipeline w warehouse_path table_name) as H.
  unfold passed, outcome, trace_of.
  destruct (validate_iceberg_table w warehouse_path table_name)
    as [tr [[|]|e]]; cbn [fst snd]; try discriminate.
  intros _. now apply H.
Qed.

(** X10. A traceback is written only by the general handler: when the
    trace holds the traceback of [e], [e] is an exception that is
    neither [NoSuchTableError] nor [ModuleNotFoundError], the run
    returned [False], and its one ERROR finding is "Validation failed"
    with the message of [e]. *)
Theorem traceback_only_when_unexpected (e : exn) :
  In (Traceback e) (trace_of w warehouse_path table_name) ->
  (exists msg, e = OtherException msg) /\
  outcome w warehouse_path table_name = Returned false /\
  exists stage,
    errors (trace_of w warehouse_path table_name)
      = [validation_failed stage e].
Proof.
  unfold outcome, trace_of. rewrite validate_finish.
  pose proof (always_validate_body of_validation (fun _ => I) (fun _ => I)
                w warehouse_path table_name cat_metadata) as Hplain.
  pose proof (sound_validate_body w warehouse_path table_name cat_metadata)
    as Hquiet.
  destruct (validate_body w warehouse_path table_name cat_metadata)
    as [[tr c] [b|e']]; cbn [fst finish agrees] in Hplain, Hquiet |- *.
  - intros Hin. now apply of_validation_no_traceback in Hin.
  - destruct (is_Exception e') eqn:He; cbn [fst snd]; intros Hin.
    + apply in_app_or in Hin. destruct Hin as [Hin|Hin];
        [now apply of_validation_no_traceback in Hin|].
      destruct e' as [m|m|m|]; cbn in Hin; try discriminate;
        destruct Hin as [Hin|[Hin|[]]]; try discriminate.
      injection Hin as <-. split; [now exists m|]. split; [reflexivity|].
      exists c. now rewrite errors_app, Hquiet.
    + now apply of_validation_no_traceback in Hin.
Qed.

End Further.

Section Readable.

Variables (w : World) (warehouse_path table_name : string).
Variables (table : Table) (sch : Schema).

(** X4. When the collaborators answer every question, the verdict is
    decided by the field identifiers alone: the run returns [True]
    exactly when every field identifier is positive, whatever the format
    version, the snapshots, the current snapshot and the rows are. *)
Theorem verdict_decided_by_field_ids (snaps : list Snapshot)
  (current : option Snapshot) (df : DataFrame) (props : string) :
  readable w warehouse_path table_name table sch snaps current df props ->
  passed w warehouse_path table_name = true <->
  forall f, In f (fields sch) -> 0 < field_id f.
Proof.
  intros [Hl Hsnaps Hcur Hscan Hprops].
  destruct (has_bad_field sch) eqn:Hbad.
  - destruct (run_bad_field _ _ _ _ _ Hl Hbad) as (loc & _ & Hrun).
    unfold passed, outcome. rewrite Hrun. cbn [snd].
    split; [discriminate|]. intros Hpos.
    apply existsb_exists in Hbad. destruct Hbad as (f & Hin & Hid).
    apply Z.leb_le in Hid. specialize (Hpos f Hin). lia.
  - destruct (run_readable _ _ _ _ _ Hl snaps current df props
                Hbad Hsnaps Hcur Hscan Hprops) as (loc & _ & Hrun).
    unfold passed, outcome. rewrite Hrun. cbn [snd].
    split; [|reflexivity]. intros _. now apply fields_all_positive.
Qed.

(** X5. A format version other than 2 is only warned about.  On a table
    that can be read and whose field identifiers are positive the run
    returns [True] whatever the format version is, and the report holds
    the WARNING "Format version is ..., expected 2" exactly when the
    format version is not 2. *)
Theorem format_version_only_warns (snaps : list Snapshot)
  (current : option Snapshot) (df : DataFrame) (props : string) :
  readable w warehouse_path table_name table sch snaps current df props ->
  (forall f, In f (fields sch) -> 0 < field_id f) ->
  passed w warehouse_path table_name = true /\
  (In (unexpected_format_version table) (report w warehouse_path table_name)
   <-> format_version (metadata table) <> 2).
Proof.
  intros [Hl Hsnaps Hcur Hscan Hprops] Hpos.
  assert (Hgood : has_bad_field sch = false).
  { destruct (has_bad_field sch) eqn:E; [|reflexivity].
    apply existsb_exists in E. destruct E as (f & Hin & Hid).
    apply Z.leb_le in Hid. specialize (Hpos f Hin). lia. }
  destruct (run_readable _ _ _ _ _ Hl snaps current df props
              Hgood Hsnaps Hcur Hscan Hprops) as (loc & _ & Hrun).
  unfold passed, outcome, report, trace_of. rewrite Hrun. cbn [fst snd].
  split; [reflexivity|].
  rewrite !findings_app, !in_app_iff.
  unfold metadata_events, describe_events, format_warning.
  cbn [findings]. rewrite findings_app, in_app_iff.
  destruct (Z.eqb_spec (format_version (metadata table)) 2) as [Hv|Hv];
    cbn [negb]; split.
  - intros [[H|H]|[H|[H|[H|H]]]].
    + cbn in H. intuition discriminate.
    + destruct H.
    + apply category_schema_events in H. discriminate.
    + apply category_snapshots_events in H. discriminate.
    + apply category_current_events in H. destruct H; discriminate.
    + apply severity_summary_events in H. discriminate.
  - intros H. contradiction.
  - intros _. assumption.
  - intros _. left. right. cbn. now left.
Qed.

Hypothesis L : loads w warehouse_path table_name table sch.

(** X6. A scan that fails is terminal.  When the table has a current
    snapshot and [table.scan()] or [scan.to_pandas()] raises an exception
    the handlers catch, the run returns [False]; the lines of the
    metadata, schema and snapshot stages stay at the head of the report;
    its one ERROR finding is the handler's line, filed under scan; and
    the additional metadata is never reached: the properties are not
    read. *)
Theorem scan_failure_fails_the_run (snaps : list Snapshot) (cur : Snapshot)
  (e : exn) :
  (forall f, In f (fields sch) -> 0 < field_id f) ->
  snapshots (metadata table) = Ok snaps ->
  current_snapshot (metadata table) = Ok (Some cur) ->
  scan table = Raise e \/
  (exists sc, scan table = Ok sc /\ to_pandas sc = Raise e) ->
  is_Exception e = true ->
  outcome w warehouse_path table_name = Returned false /\
  (exists loc,
     prefix_of (findings (metadata_events warehouse_path table_name loc table
                          ++ schema_events sch ++ snapshots_events snaps))
               (report w warehouse_path table_name)) /\
  (exists err,
     errors (trace_of w warehouse_path table_name) = [err] /\
     category err = cat_scan /\
     match e with
     | NoSuchTableError _ => message err = "❌ Table not found: " ++ table_name
     | _ => mentions (str_exn e) (message err)
     end) /\
  ~ In call_properties (calls (trace_of w warehouse_path table_name)).
Proof.
  intros Hpos Hsnaps Hcur Hscan He.
  destruct (run_scan_failure _ _ _ _ _ L snaps cur e
              (good_fields _ Hpos) Hsnaps Hcur Hscan He)
    as (loc & asked & _ & Hasked & Hrun).
  unfold outcome, report, trace_of. rewrite Hrun. cbn [fst snd].
  split; [reflexivity|]. split; [|split].
  - exists loc. unfold prefix_of. eexists.
    rewrite !findings_app, <- !app_assoc. reflexivity.
  - destruct (handler_error warehouse_path table_name cat_scan e He)
      as (err & rest & _ & Herr & _ & Hcat & Hmsg).
    exists err. split; [|split; assumption].
    rewrite !errors_app, Herr, errors_metadata_events, errors_schema_events,
      errors_snapshots_events.
    destruct Hasked as [-> | ->]; reflexivity.
  - rewrite !calls_app, calls_metadata_events, calls_schema_events,
      calls_snapshots_events, calls_handler_events.
    destruct Hasked as [-> | ->]; cbn; intuition discriminate.
Qed.

End Readable.

Section Listings.

Variables (w : World) (warehouse_path table_name : string).
Variables (table : Table) (sch : Schema).
Hypothesis L : loads w warehouse_path table_name table sch.

(** X7. Every field of the schema is listed, in declaration order, each
    with its line and, when its identifier is not positive, the WARNING
    that follows it: the loop does not stop at the first bad field, and
    nothing that happens later in the run removes the lines. *)
Theorem fields_listed_in_order :
  exists before after,
    report w warehouse_path table_name
      = (before ++ flat_map field_findings (fields sch) ++ after)%list.
Proof.
  destruct (run_to_schema _ _ _ _ _ L) as (loc & _ & Hrun).
  unfold report, trace_of. rewrite Hrun, finish_prepend. cbn [fst].
  set (rest := fst (finish _ _ _)).
  unfold schema_events, field_events.
  exists (findings (metadata_events warehouse_path table_name loc table)
          ++ findings
               [ Called call_schema;
                 info cat_schema (nl ++ "✓ Schema validation:");
                 info cat_schema ("  Schema ID: " ++ str_int (schema_id sch));
                 info cat_schema ("  Field count: "
                                  ++ str_len (length (fields sch))) ])%list.
  exists (findings rest).
  rewrite !findings_app, findings_reports, <- !app_assoc. reflexivity.
Qed.

(** X8. When the schema has passed and the snapshots can be listed, the
    report holds the lines of the fields and then those of the snapshots,
    three for each snapshot (id, timestamp, summary) in the order of the
    metadata, whatever the stages that follow do; for a table without
    snapshots the WARNING "No snapshots found" stands in their place. *)
Theorem snapshots_listed_in_order (snaps : list Snapshot) :
  (forall f, In f (fields sch) -> 0 < field_id f) ->
  snapshots (metadata table) = Ok snaps ->
  exists before between after,
    report w warehouse_path table_name
      = (before ++ flat_map field_findings (fields sch)
         ++ between ++ flat_map snapshot_findings snaps ++ after)%list /\
    (snaps = [] -> between = [no_snapshots_found]).
Proof.
  intros Hpos Hsnaps.
  destruct (run_to_current_snapshot _ _ _ _ _ L snaps
              (good_fields _ Hpos) Hsnaps) as (loc & _ & Hrun).
  unfold report, trace_of. rewrite Hrun, finish_prepend. cbn [fst].
  set (rest := fst (finish _ _ _)).
  unfold schema_events, field_events, snapshots_events.
  exists (findings (metadata_events warehouse_path table_name loc table)
          ++ findings
               [ Called call_schema;
                 info cat_schema (nl ++ "✓ Schema validation:");
                 info cat_schema ("  Schema ID: " ++ str_int (schema_id sch));
                 info cat_schema ("  Field count: "
                                  ++ str_len (length (fields sch))) ])%list.
  destruct snaps as [|s rest'].
  - exists [no_snapshots_found], (findings rest). split; [|reflexivity].
    rewrite !findings_app, findings_reports, <- !app_assoc. reflexivity.
  - exists [ {| severity := INFO; category := cat_snapshot;
               message := nl ++ "✓ Snapshots: "
                          ++ str_len (length (s :: rest')) |} ],
           (findings rest).
    split; [|discriminate].
    unfold snapshot_events.
    rewrite !findings_app. cbn [findings info].
    rewrite !findings_reports, <- !app_assoc.
    reflexivity.
Qed.

End Listings.

Section Main.

Lemma rule_is_not_a_result (b : bool) :
  rule <> (if b then "RESULT: PASSED ✅" else "RESULT: FAILED ❌").
Proof. destruct b; vm_compute; discriminate. Qed.

Lemma result_lines (success : bool) (warehouse table : string) (b : bool) :
  In (if b then "RESULT: PASSED ✅" else "RESULT: FAILED ❌")
     ([ rule; "Iceberg Table Validation (PyIceberg)"; rule;
        "Warehouse: " ++ warehouse; "Table: " ++ table; rule; "" ]
      ++ [ ""; rule;
           if success then "RESULT: PASSED ✅" else "RESULT: FAILED ❌";
           rule ]) <->
  success = b.
Proof.
  pose proof (rule_is_not_a_result b) as Hrule. split.
  - cbn [In app]. intros H.
    repeat (destruct H as [H|H];
            [first [ now symmetry in H
                   | destruct b; discriminate H
                   | destruct success, b; (reflexivity || discriminate H) ]|]).
    destruct H.
  - intros ->. cbn [In app]. do 9 right. now left.
Qed.

(** X9. [main] reports the run and nothing else.  With a script name and
    two arguments, the Findings and the collaborator calls of [main] are
    those of the validation of the two arguments; [main] prints
    "RESULT: PASSED" exactly when it exits with status 0, and
    "RESULT: FAILED" exactly when the validation returned [False]. *)
Theorem main_prints_the_verdict (w : World) (argv : list string) :
  (In "RESULT: PASSED ✅" (stdout (fst (main w argv))) <->
   snd (main w argv) = Exited 0) /\
  (length argv = 3%nat ->
   findings (fst (main w argv)) = report w (nth 1 argv "") (nth 2 argv "") /\
   calls (fst (main w argv))
     = calls (trace_of w (nth 1 argv "") (nth 2 argv "")) /\
   (In "RESULT: FAILED ❌" (stdout (fst (main w argv))) <->
    outcome w (nth 1 argv "") (nth 2 argv "") = Returned false)).
Proof.
  pose proof (stdout_validate w (nth 1 argv "") (nth 2 argv "")) as Hquiet.
  unfold main, report, outcome, trace_of in *.
  destruct (length argv =? 3)%nat eqn:Hlen; cbn [negb].
  - destruct (validate_iceberg_table w (nth 1 argv "") (nth 2 argv ""))
      as [tr [success|e]]; cbn [fst snd] in Hquiet |- *.
    + pose proof (result_lines success (nth 1 argv "") (nth 2 argv "") true)
        as Hp.
      pose proof (result_lines success (nth 1 argv "") (nth 2 argv "") false)
        as Hf.
      cbn [app] in Hp, Hf.
      rewrite !stdout_app, !stdout_lines, Hquiet. cbn [app].
      rewrite !findings_app, !calls_app, !findings_lines, !calls_lines,
        !app_nil_r. cbn [app].
      split; [|intros _; split; [reflexivity | split; [reflexivity|]]].
      * rewrite Hp. destruct success; split; congruence.
      * rewrite Hf. destruct success; split; congruence.
    + rewrite !stdout_app, !stdout_lines, Hquiet, app_nil_r.
      rewrite !findings_app, !calls_app, !findings_lines, !calls_lines.
      cbn [app].
      split; [|intros _; split; [reflexivity | split; [reflexivity|]]].
      * split; [|discriminate]. cbn [In]. intros H.
        pose proof (rule_is_not_a_result true) as Hrule.
        repeat (destruct H as [H|H];
                [first [ now symmetry in H | discriminate H ]|]).
        destruct H.
      * split; [|discriminate]. cbn [In]. intros H.
        pose proof (rule_is_not_a_result false) as Hrule.
        repeat (destruct H as [H|H];
                [first [ now symmetry in H | discriminate H ]|]).
        destruct H.
  - cbn [fst snd]. split.
    + rewrite stdout_lines. split; [|discriminate].
      intros H. vm_compute in H.
      repeat (destruct H as [H|H]; [discriminate H|]). destruct H.
    + intros H. apply Nat.eqb_neq in Hlen. contradiction.
Qed.

End Main.

(** ** The further properties on the second warehouse *)

Ltac cases_loads :=
  constructor;
  [ reflexivity
  | exists Cases.catalog; split; reflexivity
  | eexists; reflexivity
  | reflexivity ].

Ltac cases_readable :=
  constructor;
  [ cases_loads
  | reflexivity
  | reflexivity
  | intros _; eexists; split; reflexivity
  | reflexivity ].

Lemma error_ends_the_run_witness :
  exists before err after,
    trace_of Cases.wh "/data/wh" "corrupt"
      = (before ++ Report err :: after)%list /\
    errors before = [] /\ severity err = ERROR /\
    errors after = [] /\ calls after = [] /\ (length after <= 1)%nat.
Proof. exact (error_ends_the_run Cases.wh "/data/wh" "corrupt"). Defined.

Lemma calls_follow_the_pipeline_witness :
  prefix_of (calls (trace_of Example.wh "/tmp/wh" "detached"))
            (pipeline "/tmp/wh" "detached" false) /\
  prefix_of (calls (trace_of Cases.wh "/data/wh" "corrupt"))
            (pipeline "/data/wh" "corrupt" true).
Proof.
  split.
  - exact (proj2 (calls_follow_the_pipeline Example.wh "/tmp/wh" "detached")).
  - exact (proj2 (calls_follow_the_pipeline Cases.wh "/data/wh" "corrupt")).
Defined.

Lemma passing_run_asked_everything_witness :
  calls (trace_of Example.wh "/tmp/wh" "detached")
    = pipeline "/tmp/wh" "detached" false /\
  calls (trace_of Cases.wh "/data/wh" "archive")
    = pipeline "/data/wh" "archive" true.
Proof.
  split.
  - apply (passing_run_asked_everything Example.wh "/tmp/wh" "detached").
    reflexivity.
  - apply (passing_run_asked_everything Cases.wh "/data/wh" "archive").
    reflexivity.
Defined.

Lemma verdict_decided_by_field_ids_witness :
  passed Cases.wh "/data/wh" "archive" = true /\
  ~ (forall f, In f (fields Cases.renumbered_schema) -> 0 < field_id f).
Proof.
  split.
  - apply (verdict_decided_by_field_ids Cases.wh "/data/wh" "archive"
             Cases.archive Example.orders_schema [Example.first_snapshot]
             (Some Example.first_snapshot) Cases.no_rows "{}").
    + cases_readable.
    + cbn. intros f [<-|[<-|[]]]; cbn; lia.
  - intros Hpos.
    destruct (verdict_decided_by_field_ids Cases.wh "/data/wh" "renumbered"
                Cases.renumbered Cases.renumbered_schema
                [Example.first_snapshot] (Some Example.first_snapshot)
                Example.three_rows "{}") as (_ & Hpassed).
    + cases_readable.
    + specialize (Hpassed Hpos). vm_compute in Hpassed. discriminate.
Defined.

Lemma format_version_only_warns_witness :
  passed Cases.wh "/data/wh" "archive" = true /\
  In (unexpected_format_version Cases.archive)
     (report Cases.wh "/data/wh" "archive").
Proof.
  destruct (format_version_only_warns Cases.wh "/data/wh" "archive"
              Cases.archive Example.orders_schema [Example.first_snapshot]
              (Some Example.first_snapshot) Cases.no_rows "{}")
    as (Hpassed & Hwarn).
  - cases_readable.
  - cbn. intros f [<-|[<-|[]]]; cbn; lia.
  - split; [assumption|]. apply Hwarn. discriminate.
Defined.

Lemma scan_failure_fails_the_run_witness :
  outcome Cases.wh "/data/wh" "corrupt" = Returned false /\
  ~ In call_properties (calls (trace_of Cases.wh "/data/wh" "corrupt")).
Proof.
  destruct (scan_failure_fails_the_run Cases.wh "/data/wh" "corrupt"
              Cases.corrupt Example.orders_schema)
    with (snaps := [Example.first_snapshot]) (cur := Example.first_snapshot)
         (e := OtherException "Parquet magic bytes not found")
    as (Hout & _ & _ & Hprops).
  - cases_loads.
  - cbn. intros f [<-|[<-|[]]]; cbn; lia.
  - reflexivity.
  - reflexivity.
  - right. eexists. split; reflexivity.
  - reflexivity.
  - split; assumption.
Defined.

Lemma fields_listed_in_order_witness :
  exists before after,
    report Cases.wh "/data/wh" "renumbered"
      = (before ++ flat_map field_findings (fields Cases.renumbered_schema)
         ++ after)%list.
Proof.
  apply (fields_listed_in_order Cases.wh "/data/wh" "renumbered"
           Cases.renumbered Cases.renumbered_schema).
  cases_loads.
Defined.

Lemma snapshots_listed_in_order_witness :
  exists before between after,
    report Cases.wh "/data/wh" "archive"
      = (before ++ flat_map field_findings (fields Example.orders_schema)
         ++ between
         ++ flat_map snapshot_findings [Example.first_snapshot] ++ after)%list /\
    ([Example.first_snapshot] = [] -> between = [no_snapshots_found]).
Proof.
  apply (snapshots_listed_in_order Cases.wh "/data/wh" "archive"
           Cases.archive Example.orders_schema).
  - cases_loads.
  - cbn. intros f [<-|[<-|[]]]; cbn; lia.
  - reflexivity.
Defined.

Lemma main_prints_the_verdict_witness :
  In "RESULT: FAILED ❌"
     (stdout (fst (main Cases.wh
                     ["validate-with-pyiceberg.py"; "/data/wh"; "corrupt"]))).
Proof.
  destruct (main_prints_the_verdict Cases.wh
              ["validate-with-pyiceberg.py"; "/data/wh"; "corrupt"])
    as (_ & Hrun).
  destruct (Hrun eq_refl) as (_ & _ & Hfailed). apply Hfailed. reflexivity.
Defined.

Lemma traceback_only_when_unexpected_witness :
  outcome Cases.wh "/data/wh" "corrupt" = Returned false /\
  exists stage,
    errors (trace_of Cases.wh "/data/wh" "corrupt")
      = [validation_failed stage
           (OtherException "Parquet magic bytes not found")].
Proof.
  destruct (traceback_only_when_unexpected Cases.wh "/data/wh" "corrupt"
              (OtherException "Parquet magic bytes not found"))
    as (_ & Hout & Herr).
  - vm_compute. repeat (first [left; reflexivity | right]).
  - split; assumption.
Defined.

(** ** The script on a console *)

Section OnConsole.

Variable console : Console.

Lemma quiet_printed_info (text : string) :
  quiet (Printing.say console INFO text).
Proof. intros c. unfold Printing.say. now destruct (write_out console text). Qed.

Lemma quiet_printed_warning (text : string) :
  quiet (Printing.say console WARNING text).
Proof. intros c. unfold Printing.say. now destruct (write_out console text). Qed.

#[local] Hint Resolve quiet_printed_info quiet_printed_warning : quiet.

Lemma quiet_printed_field_loop (f : Field) (acc : bool) :
  quiet (Printing.field_loop console f acc).
Proof. unfold Printing.field_loop. quiet_steps. Qed.

Lemma quiet_printed_snapshot_loop (s : Snapshot) (u : unit) :
  quiet (Printing.snapshot_loop console s u).
Proof. unfold Printing.snapshot_loop. quiet_steps. Qed.

Lemma quiet_printed_dtype_loop (item : string * string) (u : unit) :
  quiet (Printing.dtype_loop console item u).
Proof. unfold Printing.dtype_loop. quiet_steps. Qed.

#[local] Hint Resolve quiet_printed_field_loop quiet_printed_snapshot_loop
  quiet_printed_dtype_loop : quiet.




Lemma quiet_printed_scan_table (table : Table) :
  quiet (Printing.scan_table console table).
Proof. unfold Printing.scan_table. quiet_steps. Qed.

#[local] Hint Resolve quiet_printed_scan_table : quiet.







End OnConsole.

Lemma validate_on_reliable (w : World) (warehouse_path table_name : string) :
  validate_on reliable w warehouse_path table_name
    = validate_iceberg_table w warehouse_path table_name.
Proof. reflexivity. Qed.

Section OnAnyConsole.

Variables (console : Console) (w : World) (warehouse_path table_name : string).


End OnAnyConsole.

Section Cli.

Variable console : Console.





End Cli.

Section CliStatus.




End CliStatus.

(** ** The script on the two warehouses and on a console without marks *)



